(** * Address book assistant (main.py): validated fields, records,
      the directory and the command loop.

    The Python program is embedded shallowly.  Text is a Rocq [string];
    a raised exception is the [Raise] case of [result]; objects whose
    identity is observable carry an object id; the dictionary of the
    address book is an association list in insertion order; the clock
    read by [datetime.today()] is an explicit argument [today]. *)

From Stdlib Require Import ZArith List String Ascii Bool Lia DecimalString.
From Stdlib Require DecimalNat.
Import ListNotations.
Local Open Scope string_scope.
Local Open Scope Z_scope.

(* ------------------------------------------------------------------ *)
(** ** Exceptions and results *)

Inductive exn : Type :=
| ValueError (msg : string)
| KeyError (msg : string)
| IndexError (msg : string)
| EOFError.

Inductive result (A : Type) : Type :=
| Ok (a : A)
| Raise (e : exn).

Arguments Ok {A} a.
Arguments Raise {A} e.

Definition bind {A B} (r : result A) (k : A -> result B) : result B :=
  match r with
  | Ok a => k a
  | Raise e => Raise e
  end.

Notation "x <- r ;; k" := (bind r (fun x => k))
  (at level 61, r at next level, right associativity).

Definition is_ok {A} (r : result A) : bool :=
  match r with Ok _ => true | Raise _ => false end.

(** [str(e)] for the exceptions of the program. *)
Definition exn_str (e : exn) : string :=
  match e with
  | ValueError m => m
  | KeyError k => "'" ++ k ++ "'"
  | IndexError m => m
  | EOFError => ""
  end.

(* ------------------------------------------------------------------ *)
(** ** Python [str] and the methods the program uses

    A text is a sequence of Unicode characters.  It is kept as a Rocq
    string holding its UTF-8 form, so that the literals of the program
    read as they are written; a byte that is not part of a UTF-8 form
    stands for the character U+DC00 + byte, as in the decoding of
    Python with surrogate escapes, which makes every Rocq string one
    text.  The methods work on the characters, not on the bytes, and
    classify them with the tables of the Unicode database, here those of
    Unicode 14.0.0, which CPython 3.11 carries. *)

Module Str.

(** The byte that a character of a Rocq string is. *)
Definition code (c : ascii) : Z := Z.of_nat (nat_of_ascii c).

Definition in_range (lo hi c : Z) : bool := (lo <=? c) && (c <=? hi).

(** Membership in a table of ranges of code points. *)
Definition in_table (t : list (Z * Z)) (c : Z) : bool :=
  existsb (fun r => in_range (fst r) (snd r) c) t.

(** White space, by [str.isspace]: what [str.split()] separates on. *)
Definition space_table : list (Z * Z) :=
  [ (9, 13); (28, 32); (133, 133); (160, 160); (5760, 5760); (8192, 8202);
    (8232, 8233); (8239, 8239); (8287, 8287); (12288, 12288) ].

(** Decimal digits, by [str.isdecimal]: what [\d] of [re] matches and
    [int] converts; they come in runs of ten, 0 to 9. *)
Definition decimal_table : list (Z * Z) :=
  [ (48, 57); (1632, 1641); (1776, 1785); (1984, 1993); (2406, 2415);
    (2534, 2543); (2662, 2671); (2790, 2799); (2918, 2927); (3046, 3055);
    (3174, 3183); (3302, 3311); (3430, 3439); (3558, 3567); (3664, 3673);
    (3792, 3801); (3872, 3881); (4160, 4169); (4240, 4249); (6112, 6121);
    (6160, 6169); (6470, 6479); (6608, 6617); (6784, 6793); (6800, 6809);
    (6992, 7001); (7088, 7097); (7232, 7241); (7248, 7257); (42528, 42537);
    (43216, 43225); (43264, 43273); (43472, 43481); (43504, 43513);
    (43600, 43609); (44016, 44025); (65296, 65305); (66720, 66729);
    (68912, 68921); (69734, 69743); (69872, 69881); (69942, 69951);
    (70096, 70105); (70384, 70393); (70736, 70745); (70864, 70873);
    (71248, 71257); (71360, 71369); (71472, 71481); (71904, 71913);
    (72016, 72025); (72784, 72793); (73040, 73049); (73120, 73129);
    (92768, 92777); (92864, 92873); (93008, 93017); (120782, 120831);
    (123200, 123209); (123632, 123641); (125264, 125273); (130032, 130041) ].

(** Digits, by [str.isdigit]: the decimal digits and the other
    characters with a digit value, such as the superscripts. *)
Definition digit_table : list (Z * Z) :=
  [ (48, 57); (178, 179); (185, 185); (1632, 1641); (1776, 1785); (1984, 1993);
    (2406, 2415); (2534, 2543); (2662, 2671); (2790, 2799); (2918, 2927);
    (3046, 3055); (3174, 3183); (3302, 3311); (3430, 3439); (3558, 3567);
    (3664, 3673); (3792, 3801); (3872, 3881); (4160, 4169); (4240, 4249);
    (4969, 4977); (6112, 6121); (6160, 6169); (6470, 6479); (6608, 6618);
    (6784, 6793); (6800, 6809); (6992, 7001); (7088, 7097); (7232, 7241);
    (7248, 7257); (8304, 8304); (8308, 8313); (8320, 8329); (9312, 9320);
    (9332, 9340); (9352, 9360); (9450, 9450); (9461, 9469); (9471, 9471);
    (10102, 10110); (10112, 10120); (10122, 10130); (42528, 42537);
    (43216, 43225); (43264, 43273); (43472, 43481); (43504, 43513);
    (43600, 43609); (44016, 44025); (65296, 65305); (66720, 66729);
    (68160, 68163); (68912, 68921); (69216, 69224); (69714, 69722);
    (69734, 69743); (69872, 69881); (69942, 69951); (70096, 70105);
    (70384, 70393); (70736, 70745); (70864, 70873); (71248, 71257);
    (71360, 71369); (71472, 71481); (71904, 71913); (72016, 72025);
    (72784, 72793); (73040, 73049); (73120, 73129); (92768, 92777);
    (92864, 92873); (93008, 93017); (120782, 120831); (123200, 123209);
    (123632, 123641); (125264, 125273); (127232, 127242); (130032, 130041) ].

(** Alphabetic characters, by [str.isalpha]. *)
Definition alpha_table : list (Z * Z) :=
  [ (65, 90); (97, 122); (170, 170); (181, 181); (186, 186); (192, 214);
    (216, 246); (248, 705); (710, 721); (736, 740); (748, 748); (750, 750);
    (880, 884); (886, 887); (890, 893); (895, 895); (902, 902); (904, 906);
    (908, 908); (910, 929); (931, 1013); (1015, 1153); (1162, 1327);
    (1329, 1366); (1369, 1369); (1376, 1416); (1488, 1514); (1519, 1522);
    (1568, 1610); (1646, 1647); (1649, 1747); (1749, 1749); (1765, 1766);
    (1774, 1775); (1786, 1788); (1791, 1791); (1808, 1808); (1810, 1839);
    (1869, 1957); (1969, 1969); (1994, 2026); (2036, 2037); (2042, 2042);
    (2048, 2069); (2074, 2074); (2084, 2084); (2088, 2088); (2112, 2136);
    (2144, 2154); (2160, 2183); (2185, 2190); (2208, 2249); (2308, 2361);
    (2365, 2365); (2384, 2384); (2392, 2401); (2417, 2432); (2437, 2444);
    (2447, 2448); (2451, 2472); (2474, 2480); (2482, 2482); (2486, 2489);
    (2493, 2493); (2510, 2510); (2524, 2525); (2527, 2529); (2544, 2545);
    (2556, 2556); (2565, 2570); (2575, 2576); (2579, 2600); (2602, 2608);
    (2610, 2611); (2613, 2614); (2616, 2617); (2649, 2652); (2654, 2654);
    (2674, 2676); (2693, 2701); (2703, 2705); (2707, 2728); (2730, 2736);
    (2738, 2739); (2741, 2745); (2749, 2749); (2768, 2768); (2784, 2785);
    (2809, 2809); (2821, 2828); (2831, 2832); (2835, 2856); (2858, 2864);
    (2866, 2867); (2869, 2873); (2877, 2877); (2908, 2909); (2911, 2913);
    (2929, 2929); (2947, 2947); (2949, 2954); (2958, 2960); (2962, 2965);
    (2969, 2970); (2972, 2972); (2974, 2975); (2979, 2980); (2984, 2986);
    (2990, 3001); (3024, 3024); (3077, 3084); (3086, 3088); (3090, 3112);
    (3114, 3129); (3133, 3133); (3160, 3162); (3165, 3165); (3168, 3169);
    (3200, 3200); (3205, 3212); (3214, 3216); (3218, 3240); (3242, 3251);
    (3253, 3257); (3261, 3261); (3293, 3294); (3296, 3297); (3313, 3314);
    (3332, 3340); (3342, 3344); (3346, 3386); (3389, 3389); (3406, 3406);
    (3412, 3414); (3423, 3425); (3450, 3455); (3461, 3478); (3482, 3505);
    (3507, 3515); (3517, 3517); (3520, 3526); (3585, 3632); (3634, 3635);
    (3648, 3654); (3713, 3714); (3716, 3716); (3718, 3722); (3724, 3747);
    (3749, 3749); (3751, 3760); (3762, 3763); (3773, 3773); (3776, 3780);
    (3782, 3782); (3804, 3807); (3840, 3840); (3904, 3911); (3913, 3948);
    (3976, 3980); (4096, 4138); (4159, 4159); (4176, 4181); (4186, 4189);
    (4193, 4193); (4197, 4198); (4206, 4208); (4213, 4225); (4238, 4238);
    (4256, 4293); (4295, 4295); (4301, 4301); (4304, 4346); (4348, 4680);
    (4682, 4685); (4688, 4694); (4696, 4696); (4698, 4701); (4704, 4744);
    (4746, 4749); (4752, 4784); (4786, 4789); (4792, 4798); (4800, 4800);
    (4802, 4805); (4808, 4822); (4824, 4880); (4882, 4885); (4888, 4954);
    (4992, 5007); (5024, 5109); (5112, 5117); (5121, 5740); (5743, 5759);
    (5761, 5786); (5792, 5866); (5873, 5880); (5888, 5905); (5919, 5937);
    (5952, 5969); (5984, 5996); (5998, 6000); (6016, 6067); (6103, 6103);
    (6108, 6108); (6176, 6264); (6272, 6276); (6279, 6312); (6314, 6314);
    (6320, 6389); (6400, 6430); (6480, 6509); (6512, 6516); (6528, 6571);
    (6576, 6601); (6656, 6678); (6688, 6740); (6823, 6823); (6917, 6963);
    (6981, 6988); (7043, 7072); (7086, 7087); (7098, 7141); (7168, 7203);
    (7245, 7247); (7258, 7293); (7296, 7304); (7312, 7354); (7357, 7359);
    (7401, 7404); (7406, 7411); (7413, 7414); (7418, 7418); (7424, 7615);
    (7680, 7957); (7960, 7965); (7968, 8005); (8008, 8013); (8016, 8023);
    (8025, 8025); (8027, 8027); (8029, 8029); (8031, 8061); (8064, 8116);
    (8118, 8124); (8126, 8126); (8130, 8132); (8134, 8140); (8144, 8147);
    (8150, 8155); (8160, 8172); (8178, 8180); (8182, 8188); (8305, 8305);
    (8319, 8319); (8336, 8348); (8450, 8450); (8455, 8455); (8458, 8467);
    (8469, 8469); (8473, 8477); (8484, 8484); (8486, 8486); (8488, 8488);
    (8490, 8493); (8495, 8505); (8508, 8511); (8517, 8521); (8526, 8526);
    (8579, 8580); (11264, 11492); (11499, 11502); (11506, 11507);
    (11520, 11557); (11559, 11559); (11565, 11565); (11568, 11623);
    (11631, 11631); (11648, 11670); (11680, 11686); (11688, 11694);
    (11696, 11702); (11704, 11710); (11712, 11718); (11720, 11726);
    (11728, 11734); (11736, 11742); (11823, 11823); (12293, 12294);
    (12337, 12341); (12347, 12348); (12353, 12438); (12445, 12447);
    (12449, 12538); (12540, 12543); (12549, 12591); (12593, 12686);
    (12704, 12735); (12784, 12799); (13312, 19903); (19968, 42124);
    (42192, 42237); (42240, 42508); (42512, 42527); (42538, 42539);
    (42560, 42606); (42623, 42653); (42656, 42725); (42775, 42783);
    (42786, 42888); (42891, 42954); (42960, 42961); (42963, 42963);
    (42965, 42969); (42994, 43009); (43011, 43013); (43015, 43018);
    (43020, 43042); (43072, 43123); (43138, 43187); (43250, 43255);
    (43259, 43259); (43261, 43262); (43274, 43301); (43312, 43334);
    (43360, 43388); (43396, 43442); (43471, 43471); (43488, 43492);
    (43494, 43503); (43514, 43518); (43520, 43560); (43584, 43586);
    (43588, 43595); (43616, 43638); (43642, 43642); (43646, 43695);
    (43697, 43697); (43701, 43702); (43705, 43709); (43712, 43712);
    (43714, 43714); (43739, 43741); (43744, 43754); (43762, 43764);
    (43777, 43782); (43785, 43790); (43793, 43798); (43808, 43814);
    (43816, 43822); (43824, 43866); (43868, 43881); (43888, 44002);
    (44032, 55203); (55216, 55238); (55243, 55291); (63744, 64109);
    (64112, 64217); (64256, 64262); (64275, 64279); (64285, 64285);
    (64287, 64296); (64298, 64310); (64312, 64316); (64318, 64318);
    (64320, 64321); (64323, 64324); (64326, 64433); (64467, 64829);
    (64848, 64911); (64914, 64967); (65008, 65019); (65136, 65140);
    (65142, 65276); (65313, 65338); (65345, 65370); (65382, 65470);
    (65474, 65479); (65482, 65487); (65490, 65495); (65498, 65500);
    (65536, 65547); (65549, 65574); (65576, 65594); (65596, 65597);
    (65599, 65613); (65616, 65629); (65664, 65786); (66176, 66204);
    (66208, 66256); (66304, 66335); (66349, 66368); (66370, 66377);
    (66384, 66421); (66432, 66461); (66464, 66499); (66504, 66511);
    (66560, 66717); (66736, 66771); (66776, 66811); (66816, 66855);
    (66864, 66915); (66928, 66938); (66940, 66954); (66956, 66962);
    (66964, 66965); (66967, 66977); (66979, 66993); (66995, 67001);
    (67003, 67004); (67072, 67382); (67392, 67413); (67424, 67431);
    (67456, 67461); (67463, 67504); (67506, 67514); (67584, 67589);
    (67592, 67592); (67594, 67637); (67639, 67640); (67644, 67644);
    (67647, 67669); (67680, 67702); (67712, 67742); (67808, 67826);
    (67828, 67829); (67840, 67861); (67872, 67897); (67968, 68023);
    (68030, 68031); (68096, 68096); (68112, 68115); (68117, 68119);
    (68121, 68149); (68192, 68220); (68224, 68252); (68288, 68295);
    (68297, 68324); (68352, 68405); (68416, 68437); (68448, 68466);
    (68480, 68497); (68608, 68680); (68736, 68786); (68800, 68850);
    (68864, 68899); (69248, 69289); (69296, 69297); (69376, 69404);
    (69415, 69415); (69424, 69445); (69488, 69505); (69552, 69572);
    (69600, 69622); (69635, 69687); (69745, 69746); (69749, 69749);
    (69763, 69807); (69840, 69864); (69891, 69926); (69956, 69956);
    (69959, 69959); (69968, 70002); (70006, 70006); (70019, 70066);
    (70081, 70084); (70106, 70106); (70108, 70108); (70144, 70161);
    (70163, 70187); (70272, 70278); (70280, 70280); (70282, 70285);
    (70287, 70301); (70303, 70312); (70320, 70366); (70405, 70412);
    (70415, 70416); (70419, 70440); (70442, 70448); (70450, 70451);
    (70453, 70457); (70461, 70461); (70480, 70480); (70493, 70497);
    (70656, 70708); (70727, 70730); (70751, 70753); (70784, 70831);
    (70852, 70853); (70855, 70855); (71040, 71086); (71128, 71131);
    (71168, 71215); (71236, 71236); (71296, 71338); (71352, 71352);
    (71424, 71450); (71488, 71494); (71680, 71723); (71840, 71903);
    (71935, 71942); (71945, 71945); (71948, 71955); (71957, 71958);
    (71960, 71983); (71999, 71999); (72001, 72001); (72096, 72103);
    (72106, 72144); (72161, 72161); (72163, 72163); (72192, 72192);
    (72203, 72242); (72250, 72250); (72272, 72272); (72284, 72329);
    (72349, 72349); (72368, 72440); (72704, 72712); (72714, 72750);
    (72768, 72768); (72818, 72847); (72960, 72966); (72968, 72969);
    (72971, 73008); (73030, 73030); (73056, 73061); (73063, 73064);
    (73066, 73097); (73112, 73112); (73440, 73458); (73648, 73648);
    (73728, 74649); (74880, 75075); (77712, 77808); (77824, 78894);
    (82944, 83526); (92160, 92728); (92736, 92766); (92784, 92862);
    (92880, 92909); (92928, 92975); (92992, 92995); (93027, 93047);
    (93053, 93071); (93760, 93823); (93952, 94026); (94032, 94032);
    (94099, 94111); (94176, 94177); (94179, 94179); (94208, 100343);
    (100352, 101589); (101632, 101640); (110576, 110579); (110581, 110587);
    (110589, 110590); (110592, 110882); (110928, 110930); (110948, 110951);
    (110960, 111355); (113664, 113770); (113776, 113788); (113792, 113800);
    (113808, 113817); (119808, 119892); (119894, 119964); (119966, 119967);
    (119970, 119970); (119973, 119974); (119977, 119980); (119982, 119993);
    (119995, 119995); (119997, 120003); (120005, 120069); (120071, 120074);
    (120077, 120084); (120086, 120092); (120094, 120121); (120123, 120126);
    (120128, 120132); (120134, 120134); (120138, 120144); (120146, 120485);
    (120488, 120512); (120514, 120538); (120540, 120570); (120572, 120596);
    (120598, 120628); (120630, 120654); (120656, 120686); (120688, 120712);
    (120714, 120744); (120746, 120770); (120772, 120779); (122624, 122654);
    (123136, 123180); (123191, 123197); (123214, 123214); (123536, 123565);
    (123584, 123627); (124896, 124902); (124904, 124907); (124909, 124910);
    (124912, 124926); (124928, 125124); (125184, 125251); (125259, 125259);
    (126464, 126467); (126469, 126495); (126497, 126498); (126500, 126500);
    (126503, 126503); (126505, 126514); (126516, 126519); (126521, 126521);
    (126523, 126523); (126530, 126530); (126535, 126535); (126537, 126537);
    (126539, 126539); (126541, 126543); (126545, 126546); (126548, 126548);
    (126551, 126551); (126553, 126553); (126555, 126555); (126557, 126557);
    (126559, 126559); (126561, 126562); (126564, 126564); (126567, 126570);
    (126572, 126578); (126580, 126583); (126585, 126588); (126590, 126590);
    (126592, 126601); (126603, 126619); (126625, 126627); (126629, 126633);
    (126635, 126651); (131072, 173791); (173824, 177976); (177984, 178205);
    (178208, 183969); (183984, 191456); (194560, 195101); (196608, 201546) ].

Definition char_isspace (c : Z) : bool := in_table space_table c.
Definition char_isdecimal (c : Z) : bool := in_table decimal_table c.
Definition char_isdigit (c : Z) : bool := in_table digit_table c.
Definition char_isalpha (c : Z) : bool := in_table alpha_table c.

(** The value of a decimal digit: its place in its run of ten. *)
Fixpoint decimal_value_in (t : list (Z * Z)) (c : Z) : Z :=
  match t with
  | [] => 0
  | (lo, hi) :: r =>
      if in_range lo hi c then (c - lo) mod 10 else decimal_value_in r c
  end.

Definition decimal_value (c : Z) : Z := decimal_value_in decimal_table c.

(** *** From bytes to characters

    [chunks s] is the text that [s] stands for, character by character,
    each code point with the bytes it came from. *)

(** A continuation byte. *)
Definition cont (b : Z) : bool := in_range 128 191 b.

(** The second byte allowed after the lead byte of a form of three
    bytes, and of four: no overlong form, no surrogate, nothing past
    U+10FFFF. *)
Definition second3 (b0 b1 : Z) : bool :=
  if b0 =? 224 then in_range 160 191 b1
  else if b0 =? 237 then in_range 128 159 b1
  else cont b1.

Definition second4 (b0 b1 : Z) : bool :=
  if b0 =? 240 then in_range 144 191 b1
  else if b0 =? 244 then in_range 128 143 b1
  else cont b1.

(** The character that a byte outside UTF-8 stands for. *)
Definition escape (b : Z) : Z := 56320 + b.

Fixpoint chunks (s : string) : list (Z * string) :=
  match s with
  | EmptyString => []
  | String a r =>
      let b0 := code a in
      let bad := (escape b0, String a "") in
      if b0 <? 128 then (b0, String a "") :: chunks r
      else if in_range 194 223 b0 then
        match r with
        | String a1 r1 =>
            if cont (code a1)
            then ((b0 - 192) * 64 + (code a1 - 128),
                  String a (String a1 "")) :: chunks r1
            else bad :: chunks r
        | EmptyString => bad :: chunks r
        end
      else if in_range 224 239 b0 then
        match r with
        | String a1 (String a2 r2) =>
            if second3 b0 (code a1) && cont (code a2)
            then ((b0 - 224) * 4096 + (code a1 - 128) * 64
                  + (code a2 - 128),
                  String a (String a1 (String a2 ""))) :: chunks r2
            else bad :: chunks r
        | _ => bad :: chunks r
        end
      else if in_range 240 244 b0 then
        match r with
        | String a1 (String a2 (String a3 r3)) =>
            if second4 b0 (code a1) && cont (code a2) && cont (code a3)
            then ((b0 - 240) * 262144 + (code a1 - 128) * 4096
                  + (code a2 - 128) * 64 + (code a3 - 128),
                  String a (String a1 (String a2 (String a3 ""))))
                 :: chunks r3
            else bad :: chunks r
        | _ => bad :: chunks r
        end
      else bad :: chunks r
  end.

(** The characters of a text. *)
Definition decode (s : string) : list Z := map fst (chunks s).

(** *** The methods of [str] *)

Definition nonempty (s : string) : bool :=
  match s with EmptyString => false | String _ _ => true end.

Definition all (p : Z -> bool) (s : string) : bool := forallb p (decode s).

(** [s.isalpha()]: at least one character and all of them alphabetic. *)
Definition isalpha (s : string) : bool := nonempty s && all char_isalpha s.

(** [s.isdigit()]: at least one character and all of them digits. *)
Definition isdigit (s : string) : bool := nonempty s && all char_isdigit s.

(** [len(s)]: the number of characters. *)
Definition len (s : string) : Z := Z.of_nat (List.length (chunks s)).

(** [s.split()]: maximal runs of characters that are not white space.
    [cur] is the run being read. *)
Definition flush (cur : string) (acc : list string) : list string :=
  match cur with
  | EmptyString => acc
  | _ => cur :: acc
  end.

Fixpoint split_aux (cs : list (Z * string)) (cur : string)
  (acc : list string) : list string :=
  match cs with
  | [] => rev (flush cur acc)
  | (c, bytes) :: r =>
      if char_isspace c then split_aux r "" (flush cur acc)
      else split_aux r (cur ++ bytes) acc
  end.

Definition split (s : string) : list string := split_aux (chunks s) "" [].

(** [sep.join(l)]. *)
Definition join (sep : string) (l : list string) : string :=
  String.concat sep l.

(** [int(s)] on characters that are decimal digits, blanks skipped. *)
Fixpoint int_aux (cs : list Z) (acc : Z) : Z :=
  match cs with
  | [] => acc
  | c :: r =>
      if char_isdecimal c then int_aux r (10 * acc + decimal_value c)
      else int_aux r acc
  end.

Definition int_chars (cs : list Z) : Z := int_aux cs 0.

Definition int (s : string) : Z := int_chars (decode s).

(** Decimal text of a natural number, as [str(n)] and [%d] give it. *)
Definition of_nat (n : nat) : string :=
  NilZero.string_of_uint (Nat.to_uint n).

(** Decimal text of an integer, as [%i] gives it. *)
Definition of_Z (z : Z) : string :=
  if z <? 0 then "-" ++ of_nat (Z.to_nat (- z)) else of_nat (Z.to_nat z).

(** Decimal text padded with zeros on the left to [w] characters. *)
Fixpoint zfill (w : nat) (s : string) : string :=
  match w with
  | O => s
  | S w' => if (String.length s <? S w')%nat then zfill w' ("0" ++ s) else s
  end.

End Str.

(* ------------------------------------------------------------------ *)
(** ** [datetime.date] *)

Module Date.

Record date : Type := mkDate { year : Z; month : Z; day : Z }.

Definition is_leap (y : Z) : bool :=
  (y mod 4 =? 0) && (negb (y mod 100 =? 0) || (y mod 400 =? 0)).

Definition days_in_month (y m : Z) : Z :=
  if (m =? 2) && is_leap y then 29
  else if m =? 2 then 28
  else if (m =? 4) || (m =? 6) || (m =? 9) || (m =? 11) then 30
  else 31.

Definition days_before_year (y : Z) : Z :=
  let y' := y - 1 in y' * 365 + y' / 4 - y' / 100 + y' / 400.

(** The table [_DAYS_BEFORE_MONTH] of a common year. *)
Definition days_before_month_common (m : Z) : Z :=
  if m =? 1 then 0 else if m =? 2 then 31 else if m =? 3 then 59
  else if m =? 4 then 90 else if m =? 5 then 120 else if m =? 6 then 151
  else if m =? 7 then 181 else if m =? 8 then 212 else if m =? 9 then 243
  else if m =? 10 then 273 else if m =? 11 then 304 else 334.

Definition days_before_month (y m : Z) : Z :=
  days_before_month_common m + (if (2 <? m) && is_leap y then 1 else 0).

(** The check made by the constructor [date(y, m, d)]. *)
Definition valid (y m d : Z) : bool :=
  (1 <=? y) && (y <=? 9999) && (1 <=? m) && (m <=? 12)
  && (1 <=? d) && (d <=? days_in_month y m).

Definition new (y m d : Z) : result date :=
  if negb ((1 <=? y) && (y <=? 9999)) then
    Raise (ValueError ("year " ++ Str.of_Z y ++ " is out of range"))
  else if negb ((1 <=? m) && (m <=? 12)) then
    Raise (ValueError "month must be in 1..12")
  else if negb ((1 <=? d) && (d <=? days_in_month y m)) then
    Raise (ValueError "day is out of range for month")
  else Ok (mkDate y m d).

Definition ok (t : date) : Prop := valid (year t) (month t) (day t) = true.

(** [t.replace(year=y)] builds a new date and so validates it. *)
Definition replace_year (t : date) (y : Z) : result date :=
  new y (month t) (day t).

(** [t.toordinal()]. *)
Definition toordinal (t : date) : Z :=
  days_before_year (year t) + days_before_month (year t) (month t) + day t.

(** [a < b]: dates compare as the triples (year, month, day). *)
Definition ltb (a b : date) : bool :=
  (year a <? year b)
  || ((year a =? year b)
      && ((month a <? month b)
          || ((month a =? month b) && (day a <? day b)))).

(** [(a - b).days]. *)
Definition sub_days (a b : date) : Z := toordinal a - toordinal b.

(** [t.strftime("%d.%m.%Y")]; the C library does not pad the year. *)
Definition strftime_dmY (t : date) : string :=
  Str.zfill 2 (Str.of_nat (Z.to_nat (day t))) ++ "."
  ++ Str.zfill 2 (Str.of_nat (Z.to_nat (month t))) ++ "."
  ++ Str.of_nat (Z.to_nat (year t)).

End Date.

Import Date.

(* ------------------------------------------------------------------ *)
(** ** [datetime.strptime(text, "%d.%m.%Y")]

    The library turns the format into the regular expression
    [(3[0-1]|[1-2]\d|0[1-9]|[1-9]| [1-9])\.(1[0-2]|0[1-9]|[1-9])\.(\d\d\d\d)],
    matches it at the start of the text trying the alternatives in this
    order, refuses text left over after the match, and builds the date
    from the three groups.  The classes written with digits hold those
    ASCII characters only; [\d] is any decimal digit.  A matcher returns
    its ways to match, first choice first, each with the matched
    characters and the characters that remain. *)

Module Strptime.

Import Str.

Definition matcher : Type := list Z -> list (list Z * list Z).

(** One character satisfying [p]. *)
Definition one (p : Z -> bool) : matcher := fun s =>
  match s with
  | a :: r => if p a then [([a], r)] else []
  | [] => []
  end.

(** Two characters, satisfying [p] and [q]. *)
Definition two (p q : Z -> bool) : matcher := fun s =>
  match s with
  | a :: b :: r => if p a && q b then [([a; b], r)] else []
  | _ => []
  end.

(** Alternation [m1|m2]: the ways of [m1] come first. *)
Definition alt (m1 m2 : matcher) : matcher := fun s => (m1 s ++ m2 s)%list.

Definition chr (c : ascii) : Z -> bool := in_range (code c) (code c).
Definition rng (lo hi : ascii) : Z -> bool := in_range (code lo) (code hi).

(** [%d]: [3[0-1]|[1-2]\d|0[1-9]|[1-9]| [1-9]]. *)
Definition re_d : matcher :=
  alt (two (chr "3") (rng "0" "1"))
 (alt (two (rng "1" "2") char_isdecimal)
 (alt (two (chr "0") (rng "1" "9"))
 (alt (one (rng "1" "9"))
      (two (chr " ") (rng "1" "9"))))).

(** [%m]: [1[0-2]|0[1-9]|[1-9]]. *)
Definition re_m : matcher :=
  alt (two (chr "1") (rng "0" "2"))
 (alt (two (chr "0") (rng "1" "9"))
      (one (rng "1" "9"))).

(** [%Y]: [\d\d\d\d]. *)
Definition re_Y : matcher := fun s =>
  match s with
  | a :: b :: c :: d :: r =>
      if char_isdecimal a && char_isdecimal b && char_isdecimal c
         && char_isdecimal d
      then [([a; b; c; d], r)] else []
  | _ => []
  end.

(** The escaped dot of the format. *)
Definition re_dot : matcher := one (chr ".").

(** All the ways the whole expression matches at the start of [s], in
    the order a backtracking matcher finds them: the groups d, m, Y and
    the characters after the match. *)
Definition matches (s : list Z)
  : list (list Z * list Z * list Z * list Z) :=
  flat_map (fun '(d, r1) =>
  flat_map (fun '(_, r2) =>
  flat_map (fun '(m, r3) =>
  flat_map (fun '(_, r4) =>
  map (fun '(y, r5) => (d, m, y, r5)) (re_Y r4))
    (re_dot r3)) (re_m r2)) (re_dot r1)) (re_d s).

(** [format_regex.match(data_string)]: the first way, if any. *)
Definition regex_match (s : list Z)
  : option (list Z * list Z * list Z * list Z) :=
  hd_error (matches s).

(** [datetime.strptime(s, "%d.%m.%Y").date()]. *)
Definition strptime_dmY (s : string) : result date :=
  match regex_match (decode s) with
  | None => Raise (ValueError "time data does not match format")
  | Some (d, m, y, rest) =>
      match rest with
      | _ :: _ => Raise (ValueError "unconverted data remains")
      | [] => Date.new (int_chars y) (int_chars m) (int_chars d)
      end
  end.

End Strptime.

(* ------------------------------------------------------------------ *)
(** ** Fields

    [Field] keeps [_value] behind a property with a getter and a setter;
    [Name], [Phone] and [Birthday] check the text in [__init__] and then
    call [Field.__init__], which stores it through the setter.  A Phone
    has an object id: the class defines no [__eq__], so [==] on phones,
    which [list.remove] uses, is identity. *)

Class Field (A : Type) : Type := {
  value : A -> string;
  set_value : string -> A -> A
}.

Record Name : Type := mkName { name_value : string }.

Record Phone : Type := mkPhone { phone_id : nat; phone_value : string }.

Record Birthday : Type := mkBirthday { bday_value : string; bday_date : date }.

#[export] Instance Name_Field : Field Name := {
  value := name_value;
  set_value v _ := mkName v
}.

#[export] Instance Phone_Field : Field Phone := {
  value := phone_value;
  set_value v p := mkPhone (phone_id p) v
}.

#[export] Instance Birthday_Field : Field Birthday := {
  value := bday_value;
  set_value v b := mkBirthday v (bday_date b)
}.

(** [Name(value)]. *)
Definition Name_init (v : string) : result Name :=
  (* [Field.__init__] sets [_value] to a placeholder, then assigns. *)
  if negb (Str.isalpha v) then
    Raise (ValueError "Name must contain only alphabetic characters.")
  else Ok (set_value v (mkName "")).

(** [Phone(value)]; [oid] is the identity of the new object. *)
Definition Phone_init (oid : nat) (v : string) : result Phone :=
  if negb (Str.isdigit v) || negb (Str.len v =? 10) then
    Raise (ValueError "Phone number must be 10 digits long.")
  else Ok (set_value v (mkPhone oid "")).

(** [Birthday(value)]: any [ValueError] of the parser is replaced. *)
Definition Birthday_init (v : string) : result Birthday :=
  match Strptime.strptime_dmY v with
  | Ok d => Ok (set_value v (mkBirthday "" d))
  | Raise (ValueError _) =>
      Raise (ValueError "Invalid date format. Use DD.MM.YYYY")
  | Raise e => Raise e
  end.

(* ------------------------------------------------------------------ *)
(** ** Record *)

Record record : Type := mkRecord {
  name : Name;
  phones : list Phone;
  birthday : option Birthday
}.

Module Rec.

(** [Record(name)]. *)
Definition init (n : string) : result record :=
  nm <- Name_init n ;; Ok (mkRecord nm [] None).

(** [==] on two phones: the default, identity. *)
Definition phone_eq (a b : Phone) : bool := Nat.eqb (phone_id a) (phone_id b).

(** [l.remove(x)]: drops the first item equal to [x] or raises. *)
Fixpoint list_remove (x : Phone) (l : list Phone) : result (list Phone) :=
  match l with
  | [] => Raise (ValueError "list.remove(x): x not in list")
  | y :: r =>
      if phone_eq y x then Ok r
      else r' <- list_remove x r ;; Ok (y :: r')
  end.

(** [add_phone]: the argument is a [Phone] by its type, so the
    [isinstance] check passes. *)
Definition add_phone (p : Phone) (r : record) : record :=
  mkRecord (name r) (phones r ++ [p]) (birthday r).

(** [remove_phone]: the record after the call and what the call gave. *)
Definition remove_phone (p : Phone) (r : record) : record * result unit :=
  match list_remove p (phones r) with
  | Ok l => (mkRecord (name r) l (birthday r), Ok tt)
  | Raise e => (r, Raise e)
  end.

Definition add_birthday (b : Birthday) (r : record) : record :=
  mkRecord (name r) (phones r) (Some b).

(** The next occurrence of a birthday date, as both [days_to_birthday]
    and [get_upcoming_birthdays] compute it. *)
Definition next_birthday (d today : date) : result date :=
  nb <- Date.replace_year d (year today) ;;
  if Date.ltb nb today then Date.replace_year nb (year today + 1)
  else Ok nb.

Definition days_to_birthday (today : date) (r : record) : result (option Z) :=
  match birthday r with
  | None => Ok None
  | Some b =>
      nb <- next_birthday (bday_date b) today ;;
      Ok (Some (Date.sub_days nb today))
  end.

End Rec.

(* ------------------------------------------------------------------ *)
(** ** AddressBook

    [records] is a [dict]: keys are unique and iteration follows the
    order in which the keys were first inserted. *)

Definition dict : Type := list (string * record).

Module Dict.

Fixpoint get (k : string) (d : dict) : option record :=
  match d with
  | [] => None
  | (k', v) :: r => if String.eqb k' k then Some v else get k r
  end.

(** [d[k] = v]: an existing key keeps its place, a new one goes last. *)
Fixpoint set (k : string) (v : record) (d : dict) : dict :=
  match d with
  | [] => [(k, v)]
  | (k', v') :: r =>
      if String.eqb k' k then (k, v) :: r else (k', v') :: set k v r
  end.

Definition keys (d : dict) : list string := map fst d.
Definition values (d : dict) : list record := map snd d.

(** The object stored under [k] is mutated in place by [f]. *)
Fixpoint update (k : string) (f : record -> record) (d : dict) : dict :=
  match d with
  | [] => []
  | (k', v) :: r =>
      if String.eqb k' k then (k', f v) :: r else (k', v) :: update k f r
  end.

Definition wf (d : dict) : Prop := NoDup (keys d).

End Dict.

Record addressbook : Type := mkBook { records : dict }.

Module AddressBook.

Definition init : addressbook := mkBook [].

(** [add_record]: the argument is a [Record] by its type. *)
Definition add_record (r : record) (b : addressbook) : addressbook :=
  mkBook (Dict.set (value (name r)) r (records b)).

Definition find (n : string) (b : addressbook) : option record :=
  Dict.get n (records b).

(** The loop of [get_upcoming_birthdays] over [records.values()], with
    the list [upcoming] built so far. *)
Fixpoint upcoming_loop (today : date) (days : Z) (rs : list record)
  (upcoming : list string) : result (list string) :=
  match rs with
  | [] => Ok upcoming
  | r :: rest =>
      match birthday r with
      | Some b =>
          nb <- Rec.next_birthday (bday_date b) today ;;
          let n := Date.sub_days nb today in
          if (0 <=? n) && (n <? days)
          then upcoming_loop today days rest (upcoming ++ [value (name r)])
          else upcoming_loop today days rest upcoming
      | None => upcoming_loop today days rest upcoming
      end
  end.

Definition get_upcoming_birthdays (today : date) (days : Z)
  (b : addressbook) : result (list string) :=
  upcoming_loop today days (Dict.values (records b)) [].

End AddressBook.

(* ------------------------------------------------------------------ *)
(** ** Command handlers and the command loop

    The handlers work on the one address book of the run.  Its state,
    the counter that gives new phones their identity and what was
    written to standard output survive a raised exception, so a command
    is a function from the state to the new state and a result. *)

Inductive output : Type :=
| Prompt (s : string)    (* written by [input] *)
| Line (s : string).     (* written by [print] *)

Record world : Type := mkWorld {
  book : addressbook;
  next_oid : nat;
  stdout : list output
}.

Definition M (A : Type) : Type := world -> world * result A.

Definition ret {A} (a : A) : M A := fun w => (w, Ok a).
Definition raise {A} (e : exn) : M A := fun w => (w, Raise e).
Definition mbind {A B} (m : M A) (k : A -> M B) : M B := fun w =>
  match m w with
  | (w', Ok a) => k a w'
  | (w', Raise e) => (w', Raise e)
  end.

Notation "x <~ m ;; k" := (mbind m (fun x => k))
  (at level 61, m at next level, right associativity).
Notation "m ;;; k" := (mbind m (fun _ => k))
  (at level 61, right associativity).

Definition lift {A} (r : result A) : M A := fun w => (w, r).

Definition modify_book (f : addressbook -> addressbook) : M unit := fun w =>
  (mkWorld (f (book w)) (next_oid w) (stdout w), Ok tt).

Definition print (s : string) : M unit := fun w =>
  (mkWorld (book w) (next_oid w) (stdout w ++ [Line s]), Ok tt).

Definition find (n : string) : M (option record) := fun w =>
  (w, Ok (AddressBook.find n (book w))).

(** [Phone(v)] evaluated in the run: a new object, then [__init__]. *)
Definition Phone_new (v : string) : M Phone := fun w =>
  (mkWorld (book w) (S (next_oid w)) (stdout w), Phone_init (next_oid w) v).

(** A method without result called on the record found under [n]. *)
Definition on_record (n : string) (f : record -> record) : M unit :=
  modify_book (fun b => mkBook (Dict.update n f (records b))).

(** A method that may raise called on the record found under [n]. *)
Definition on_record_try (n : string) (f : record -> record * result unit)
  : M unit := fun w =>
  match AddressBook.find n (book w) with
  | Some r =>
      (mkWorld (mkBook (Dict.update n (fun r => fst (f r)) (records (book w))))
         (next_oid w) (stdout w), snd (f r))
  | None => (w, Ok tt)
  end.

(** The decorator [input_error]. *)
Definition input_error (m : M string) : M string := fun w =>
  match m w with
  | (w', Raise (ValueError s)) => (w', Ok (exn_str (ValueError s)))
  | (w', Raise (KeyError s)) => (w', Ok (exn_str (KeyError s)))
  | (w', Raise (IndexError s)) => (w', Ok (exn_str (IndexError s)))
  | other => other
  end.

(** [try: m  except ValueError: h]. *)
Definition try_ValueError {A} (m h : M A) : M A := fun w =>
  match m w with
  | (w', Raise (ValueError _)) => h w'
  | other => other
  end.

(** The error of unpacking [got] values into at least [want] names. *)
Definition unpack_error (want got : nat) : exn :=
  ValueError ("not enough values to unpack (expected at least "
              ++ Str.of_nat want ++ ", got " ++ Str.of_nat got ++ ")").

Definition add_contact (args : list string) : M string :=
  input_error
    match args with   (* [len(args) < 2] is the last case *)
    | n :: phone :: _ =>
        rec <~ find n ;;
        message <~ match rec with
                   | None =>
                       r <~ lift (Rec.init n) ;;
                       modify_book (AddressBook.add_record r) ;;;
                       ret "Contact added."
                   | Some _ => ret "Contact updated."
                   end ;;
        (if Str.nonempty phone
         then p <~ Phone_new phone ;; on_record n (Rec.add_phone p)
         else ret tt) ;;;
        ret message
    | _ => raise
             (ValueError "Command 'add' requires both name and phone number.")
    end.

Definition add_birthday (args : list string) : M string :=
  input_error
    match args with
    | n :: bd :: _ =>
        rec <~ find n ;;
        match rec with
        | None => raise (ValueError "Contact not found.")
        | Some _ =>
            b <~ lift (Birthday_init bd) ;;
            on_record n (Rec.add_birthday b) ;;;
            ret ("Birthday added for " ++ n ++ ".")
        end
    | _ => raise (unpack_error 2 (List.length args))
    end.

Definition show_birthday (args : list string) : M string :=
  input_error
    match args with
    | n :: _ =>
        rec <~ find n ;;
        match rec with
        | Some (mkRecord _ _ (Some b)) =>
            ret (n ++ "'s birthday is " ++ Date.strftime_dmY (bday_date b))
        | _ => raise (ValueError "No birthday found for this contact.")
        end
    | [] => raise (unpack_error 1 0)
    end.

Definition birthdays (today : date) (args : list string) : M string :=
  input_error
    (upcoming <~ (fun w =>
        (w, AddressBook.get_upcoming_birthdays today 7 (book w))) ;;
     match upcoming with
     | [] => ret "No upcoming birthdays."
     | _ => ret (Str.join (String "010" "") upcoming)
     end).

Definition phones_text (r : record) : string :=
  Str.join ", " (map value (phones r)).

(** The branch [command == "change"]. *)
Definition change_branch (args : list string) : M unit :=
  match args with
  | n :: old_phone :: new_phone :: _ =>
      rec <~ find n ;;
      match rec with
      | None => print "Contact not found."
      | Some _ =>
          try_ValueError
            (p <~ Phone_new old_phone ;;
             on_record_try n (Rec.remove_phone p) ;;;
             q <~ Phone_new new_phone ;;
             on_record n (Rec.add_phone q) ;;;
             print "Phone updated.")
            (print "Phone not found.")
      end
  | _ => raise (unpack_error 3 (List.length args))
  end.

(** The branch [command == "phone"]. *)
Definition phone_branch (args : list string) : M unit :=
  match args with
  | n :: _ =>
      rec <~ find n ;;
      match rec with
      | None => print "Contact not found."
      | Some r => print (n ++ "'s phones: " ++ phones_text r)
      end
  | [] => raise (unpack_error 1 0)
  end.

(** The branch [command == "all"]. *)
Fixpoint print_all (rs : list record) : M unit :=
  match rs with
  | [] => ret tt
  | r :: rest =>
      print (value (name r) ++ ": " ++ phones_text r) ;;; print_all rest
  end.

(** The dispatch of one command that is not [close] or [exit]. *)
Definition dispatch (today : date) (command : string) (args : list string)
  : M unit :=
  if String.eqb command "hello" then print "How can I help you?"
  else if String.eqb command "add" then s <~ add_contact args ;; print s
  else if String.eqb command "change" then change_branch args
  else if String.eqb command "phone" then phone_branch args
  else if String.eqb command "all" then
    (fun w => print_all (Dict.values (records (book w))) w)
  else if String.eqb command "add-birthday" then
    s <~ add_birthday args ;; print s
  else if String.eqb command "show-birthday" then
    s <~ show_birthday args ;; print s
  else if String.eqb command "birthdays" then
    s <~ birthdays today args ;; print s
  else print "Invalid command.".

(** How the process ended: the [break] of the loop, or an exception that
    nothing caught ([EOFError] is what [input] raises at end of input). *)
Inductive outcome : Type :=
| Exited
| Uncaught (e : exn).

Record run : Type := mkRun {
  final : world;
  how : outcome;
  unread : list string
}.

Definition prompt (w : world) : world :=
  mkWorld (book w) (next_oid w) (stdout w ++ [Prompt "Enter a command: "]).

(** The [while True] loop over the lines that standard input holds. *)
Fixpoint loop (today : date) (lines : list string) (w : world) : run :=
  match lines with
  | [] => mkRun (prompt w) (Uncaught EOFError) []
  | user_input :: rest =>
      let w := prompt w in
      match Str.split user_input with
      | [] => mkRun w (Uncaught (unpack_error 1 0)) rest
      | command :: args =>
          if String.eqb command "close" || String.eqb command "exit"
          then mkRun (fst (print "Good bye!" w)) Exited rest
          else
            match dispatch today command args w with
            | (w', Ok _) => loop today rest w'
            | (w', Raise e) => mkRun w' (Uncaught e) rest
            end
      end
  end.

Definition main (today : date) (lines : list string) : run :=
  loop today lines
    (fst (print "Welcome to the assistant bot!"
            (mkWorld AddressBook.init 0 []))).

Definition phone_values (n : string) (w : world) : option (list string) :=
  option_map (fun r => map value (phones r)) (AddressBook.find n (book w)).

(* ------------------------------------------------------------------ *)
(** ** Vocabulary of the properties

    Predicates on text, the texts that the date parser accepts, the
    invariant of the directory, and the records and books of the
    examples. *)

Definition chars (s : string) : list ascii := list_ascii_of_string s.

Definition every (p : ascii -> bool) (s : string) : Prop :=
  Forall (fun c => p c = true) (chars s).

(** Every character of a text satisfies [p]; the number of characters
    of a text. *)
Definition every_char (p : Z -> bool) (s : string) : Prop :=
  Forall (fun c => p c = true) (Str.decode s).

Definition char_count (s : string) : nat := List.length (Str.decode s).

Definition Phone_valid (s : string) : bool :=
  Str.isdigit s && (Str.len s =? 10).

(** What a field may go through after its construction: the property
    has a getter, which changes nothing, and a setter. *)
Inductive field_op : Type :=
| GetValue
| SetValue (v : string).

Definition apply_op {A} `{Field A} (o : field_op) (f : A) : A :=
  match o with
  | GetValue => f
  | SetValue v => set_value v f
  end.

Definition lifetime {A} `{Field A} (ops : list field_op) (f : A) : A :=
  fold_left (fun f o => apply_op o f) ops f.

Definition Birthday_valid (s : string) : bool :=
  is_ok (Strptime.strptime_dmY s).

(** The dot, as a character. *)
Definition dot : Z := Str.code ".".

(** Characters: one in [p]; two, in [p] and in [q]. *)
Definition tok1 (p : Z -> bool) (t : list Z) : Prop :=
  exists a, t = [a] /\ p a = true.

Definition tok2 (p q : Z -> bool) (t : list Z) : Prop :=
  exists a b, t = [a; b] /\ p a = true /\ q b = true.

(** The texts [Birthday] accepts for the year: four decimal digits, of
    any script. *)
Definition year_text (t : list Z) : Prop :=
  exists a b c d,
    t = [a; b; c; d]
    /\ Str.char_isdecimal a = true /\ Str.char_isdecimal b = true
    /\ Str.char_isdecimal c = true /\ Str.char_isdecimal d = true.

(** For the day: 3 and then 0 or 1; 1 or 2 and then a decimal digit of
    any script; 0 and then one of 1 to 9; one of 1 to 9; a blank and
    then one of 1 to 9.  The digits written here are the ASCII ones. *)
Definition day_text (t : list Z) : Prop :=
  tok2 (Strptime.chr "3") (Strptime.rng "0" "1") t
  \/ tok2 (Strptime.rng "1" "2") Str.char_isdecimal t
  \/ tok2 (Strptime.chr "0") (Strptime.rng "1" "9") t
  \/ tok1 (Strptime.rng "1" "9") t
  \/ tok2 (Strptime.chr " ") (Strptime.rng "1" "9") t.

(** For the month: 1 and then one of 0 to 2; 0 and then one of 1 to 9;
    one of 1 to 9, all ASCII. *)
Definition month_text (t : list Z) : Prop :=
  tok2 (Strptime.chr "1") (Strptime.rng "0" "2") t
  \/ tok2 (Strptime.chr "0") (Strptime.rng "1" "9") t
  \/ tok1 (Strptime.rng "1" "9") t.

Definition notdot (c : Z) : bool := negb (Strptime.chr "." c).

(** The ten ASCII digits, as bytes of a text, and the number that a
    text made of them stands for. *)
Definition ascii_digit (a : ascii) : bool :=
  Str.in_range 48 57 (Str.code a).

Fixpoint ascii_int_aux (s : string) (acc : Z) : Z :=
  match s with
  | EmptyString => acc
  | String c r =>
      if ascii_digit c then ascii_int_aux r (10 * acc + (Str.code c - 48))
      else ascii_int_aux r acc
  end.

Definition ascii_int (s : string) : Z := ascii_int_aux s 0.

(** A text of [n] ASCII digits. *)
Definition digits (n : nat) (t : string) : Prop :=
  String.length t = n /\ every ascii_digit t.

(** The strict format of the specification: a day of two digits, a
    month of two digits, a year of four digits, a date of the calendar. *)
Definition strict_text (s : string) : Prop :=
  exists ds ms ys,
    s = ds ++ "." ++ ms ++ "." ++ ys
    /\ digits 2 ds /\ digits 2 ms /\ digits 4 ys
    /\ Date.valid (Str.int ys) (Str.int ms) (Str.int ds) = true.

Definition john_one : record :=
  mkRecord (mkName "John") [mkPhone 0 "1234567890"] None.

Definition john_two : record :=
  mkRecord (mkName "John")
    [mkPhone 0 "1234567890"; mkPhone 1 "0987654321"] None.

Definition with_birthday (n : string) (text : string) (d : date) : record :=
  mkRecord (mkName n) [] (Some (mkBirthday text d)).

(** The invariant of the directory: a record sits under its name. *)
Definition keyed_by_name (d : dict) : Prop :=
  Forall (fun kv => fst kv = value (name (snd kv))) d.

Definition john_empty : record := mkRecord (mkName "John") [] None.

Definition record_name (r : record) : string := value (name r).

(** The next birthday of [r] is at least 0 and less than [days] days
    from today, by [days_to_birthday]. *)
Definition in_window (today : date) (days : Z) (r : record) : bool :=
  match Rec.days_to_birthday today r with
  | Ok (Some n) => (0 <=? n) && (n <? days)
  | _ => false
  end.

(** [days_to_birthday] returns for [r]: no substitution of a year
    raises. *)
Definition returns (today : date) (r : record) : Prop :=
  exists o, Rec.days_to_birthday today r = Ok o.

Definition ann : record :=
  with_birthday "Ann" "26.02.1990" (mkDate 1990 2 26).

Definition mary : record :=
  with_birthday "Mary" "29.02.2000" (mkDate 2000 2 29).

Definition bob : record :=
  with_birthday "Bob" "07.03.1980" (mkDate 1980 3 7).

Definition eve : record :=
  with_birthday "Eve" "08.03.1985" (mkDate 1985 3 8).

Definition three_book : addressbook :=
  AddressBook.add_record john_empty
    (AddressBook.add_record bob
       (AddressBook.add_record eve
          (AddressBook.add_record ann AddressBook.init))).

Definition leap_day (r : record) : Prop :=
  exists b, birthday r = Some b
            /\ month (bday_date b) = 2 /\ day (bday_date b) = 29.

Definition leap_world : world :=
  mkWorld (AddressBook.add_record mary
             (AddressBook.add_record ann AddressBook.init)) 0 [].

(** The names of the records that have a birthday. *)
Definition has_birthday (r : record) : bool :=
  match birthday r with Some _ => true | None => false end.

(** What holds of the run at every prompt: the keys of the directory
    are unique, every record sits under its name, every name, phone and
    birthday in it passes the validation of its kind, and every phone
    object is older than the next one to be made. *)
Definition phone_ok (n : nat) (p : Phone) : Prop :=
  Phone_valid (value p) = true /\ (phone_id p < n)%nat.

Definition birthday_ok (b : Birthday) : Prop :=
  Strptime.strptime_dmY (value b) = Ok (bday_date b).

Definition record_ok (n : nat) (r : record) : Prop :=
  Str.isalpha (value (name r)) = true
  /\ Forall (phone_ok n) (phones r)
  /\ (forall b, birthday r = Some b -> birthday_ok b).

Definition book_ok (n : nat) (d : dict) : Prop :=
  Dict.wf d
  /\ Forall (fun kv => fst kv = value (name (snd kv)) /\ record_ok n (snd kv))
       d.

Definition Inv (w : world) : Prop :=
  book_ok (next_oid w) (records (book w)).

Definition is_ValueError (e : exn) : Prop := exists msg, e = ValueError msg.

(** A command started in a state of [P] ends in a state of [Q] when it
    returns and in a state of [E] when it raises. *)
Definition hoare {A} (P : world -> Prop) (m : M A)
  (Q : A -> world -> Prop) (E : exn -> world -> Prop) : Prop :=
  forall w, P w ->
    match m w with
    | (w', Ok a) => Q a w'
    | (w', Raise e) => E e w'
    end.

(** The exception, if any, with which a command other than [close] and
    [exit] ends the process: the unpacking of too few arguments in the
    branches [change] and [phone]. *)
Definition fatal (command : string) (args : list string) : option exn :=
  if String.eqb command "change" && (List.length args <? 3)%nat
  then Some (unpack_error 3 (List.length args))
  else if String.eqb command "phone" && (List.length args <? 1)%nat
  then Some (unpack_error 1 0)
  else None.

(** How a run ends and the lines it leaves unread, read off the lines
    alone. *)
Fixpoint verdict (lines : list string) : outcome * list string :=
  match lines with
  | [] => (Uncaught EOFError, [])
  | user_input :: rest =>
      match Str.split user_input with
      | [] => (Uncaught (unpack_error 1 0), rest)
      | command :: args =>
          if String.eqb command "close" || String.eqb command "exit"
          then (Exited, rest)
          else match fatal command args with
               | Some e => (Uncaught e, rest)
               | None => verdict rest
               end
      end
  end.

(** A command keeps the invariant and raises nothing but [ValueError];
    a command keeps the invariant and raises nothing. *)
Definition keeps {A} (m : M A) : Prop :=
  hoare Inv m (fun _ w => Inv w) (fun e w => Inv w /\ is_ValueError e).

Definition never_raises {A} (m : M A) : Prop :=
  hoare Inv m (fun _ w => Inv w) (fun _ _ => False).

(** The line that [all] prints for a record. *)
Definition record_line (r : record) : output :=
  Line (value (name r) ++ ": " ++ phones_text r).

(* ================================================================== *)
(** * Properties *)

(* ------------------------------------------------------------------ *)
(** ** Text predicates *)

Lemma all_every_char (p : Z -> bool) (s : string) :
  Str.all p s = true <-> every_char p s.
Proof.
  unfold Str.all, every_char. rewrite forallb_forall, Forall_forall. tauto.
Qed.

Lemma nonempty_true (s : string) : Str.nonempty s = true <-> s <> "".
Proof.
  destruct s; simpl; split; congruence.
Qed.

Lemma isalpha_spec (s : string) :
  Str.isalpha s = true <-> s <> "" /\ every_char Str.char_isalpha s.
Proof.
  unfold Str.isalpha.
  now rewrite andb_true_iff, nonempty_true, all_every_char.
Qed.

Lemma isdigit_spec (s : string) :
  Str.isdigit s = true <-> s <> "" /\ every_char Str.char_isdigit s.
Proof.
  unfold Str.isdigit.
  now rewrite andb_true_iff, nonempty_true, all_every_char.
Qed.

Lemma len_char_count (s : string) : Str.len s = Z.of_nat (char_count s).
Proof.
  unfold Str.len, char_count, Str.decode. now rewrite length_map.
Qed.

Lemma count_ten_nonempty (s : string) : char_count s = 10%nat -> s <> "".
Proof.
  intros H ->. discriminate H.
Qed.

Lemma Name_init_ok (s : string) :
  Str.isalpha s = true -> Name_init s = Ok (mkName s).
Proof.
  intros H. unfold Name_init. now rewrite H.
Qed.

Lemma Name_init_raise (s : string) :
  Str.isalpha s = false ->
  Name_init s =
  Raise (ValueError "Name must contain only alphabetic characters.").
Proof.
  intros H. unfold Name_init. now rewrite H.
Qed.

Lemma Phone_init_cases (oid : nat) (s : string) :
  Phone_init oid s =
  if Phone_valid s then Ok (mkPhone oid s)
  else Raise (ValueError "Phone number must be 10 digits long.").
Proof.
  unfold Phone_init, Phone_valid.
  destruct (Str.isdigit s), (Str.len s =? 10); reflexivity.
Qed.

Lemma Phone_valid_spec (s : string) :
  Phone_valid s = true <->
  char_count s = 10%nat /\ every_char Str.char_isdigit s.
Proof.
  unfold Phone_valid.
  rewrite andb_true_iff, isdigit_spec, Z.eqb_eq, len_char_count. split.
  - intros [[_ Hd] Hl]. split; [lia | exact Hd].
  - intros [Hl Hd].
    split; [split|]; [now apply count_ten_nonempty | exact Hd | lia].
Qed.

(** C9 does not hold as stated.  [Phone] accepts ten superscript twos:
    ten characters that [str.isdigit] takes for digits and that are not
    decimal digits, of ASCII or of any other script. *)
Lemma Phone_accepts_superscripts :
  Phone_init 0 "²²²²²²²²²²" = Ok (mkPhone 0 "²²²²²²²²²²")
  /\ char_count "²²²²²²²²²²" = 10%nat
  /\ Str.decode "²" = [178]
  /\ Str.char_isdigit 178 = true
  /\ Str.char_isdecimal 178 = false
  /\ ~ every_char Str.char_isdecimal "²²²²²²²²²²"
  /\ ~ every ascii_digit "²²²²²²²²²²".
Proof.
  split; [reflexivity|]. split; [reflexivity|]. split; [reflexivity|].
  split; [reflexivity|]. split; [reflexivity|]. split.
  - unfold every_char.
    replace (Str.decode "²²²²²²²²²²") with (repeat 178 10) by reflexivity.
    intros H. inversion H as [|? ? H1 _]. discriminate H1.
  - unfold every, chars. cbn [list_ascii_of_string].
    intros H. inversion H as [|? ? H1 _]. discriminate H1.
Qed.

(** C9, as the code has it.  [Name(s)] succeeds exactly when [s] is not
    empty and all its characters are alphabetic; [Phone(s)] succeeds
    exactly when [s] has ten characters, all of them digits in the sense
    of [str.isdigit], which takes the decimal digits of every script and
    the other characters that have a digit value, such as the
    superscripts; otherwise the constructor raises its [ValueError] and
    gives no instance. *)
Theorem Name_Phone_validation (s : string) (oid : nat) :
  ((exists n, Name_init s = Ok n) <->
     s <> "" /\ every_char Str.char_isalpha s)
  /\ ((exists p, Phone_init oid s = Ok p) <->
        char_count s = 10%nat /\ every_char Str.char_isdigit s)
  /\ (~ (s <> "" /\ every_char Str.char_isalpha s) ->
      Name_init s =
      Raise (ValueError "Name must contain only alphabetic characters."))
  /\ (~ (char_count s = 10%nat /\ every_char Str.char_isdigit s) ->
      Phone_init oid s =
      Raise (ValueError "Phone number must be 10 digits long.")).
Proof.
  rewrite <- isalpha_spec, <- Phone_valid_spec, Phone_init_cases.
  repeat split.
  - intros [n Hn]. destruct (Str.isalpha s) eqn:E; [reflexivity|].
    rewrite (Name_init_raise _ E) in Hn. discriminate.
  - intros H. eexists. now apply Name_init_ok.
  - intros [p Hp]. destruct (Phone_valid s); [reflexivity | discriminate].
  - intros H. rewrite H. eexists. reflexivity.
  - intros H. apply Name_init_raise. now destruct (Str.isalpha s).
  - intros H. now destruct (Phone_valid s).
Qed.

(** The cases of section 8 of the specification, and names and phones
    outside ASCII. *)
Example Name_Phone_examples :
  Name_init "John" = Ok (mkName "John")
  /\ is_ok (Name_init "John3") = false
  /\ is_ok (Name_init "") = false
  /\ Phone_init 0 "1234567890" = Ok (mkPhone 0 "1234567890")
  /\ is_ok (Phone_init 0 "12345") = false
  /\ is_ok (Phone_init 0 "12345abcde") = false
  /\ is_ok (Name_init "José") = true
  /\ is_ok (Name_init "Іван") = true
  /\ is_ok (Phone_init 0 "١٢٣٤٥٦٧٨٩٠") = true.
Proof.
  repeat split.
Qed.

(* ------------------------------------------------------------------ *)
(** ** The [value] property of a field *)

(** C3 does not hold as stated.  The setter of [value] is exposed and
    validates nothing: the name constructed from John comes to hold text
    that is not alphabetic. *)
Lemma Field_setter_not_validated :
  Name_init "John" = Ok (mkName "John")
  /\ value (lifetime [SetValue "123"] (mkName "John")) = "123"
  /\ Str.isalpha (value (lifetime [SetValue "123"] (mkName "John"))) = false.
Proof.
  repeat split.
Qed.

Lemma Birthday_init_ok_inv (s : string) (b : Birthday) :
  Birthday_init s = Ok b ->
  Strptime.strptime_dmY s = Ok (bday_date b) /\ bday_value b = s.
Proof.
  unfold Birthday_init.
  destruct (Strptime.strptime_dmY s) as [d|[]]; try discriminate.
  intros H. injection H as <-. split; reflexivity.
Qed.

(** C3, as the code has it.  A field that a constructor returns holds
    the text it was given, and that text passes the validation of its
    kind; the setter, which stays exposed, stores whatever text it is
    given. *)
Theorem Field_valid_at_construction (s : string) :
  (forall n : Name, Name_init s = Ok n ->
     value n = s /\ Str.isalpha s = true)
  /\ (forall (oid : nat) (p : Phone), Phone_init oid s = Ok p ->
        value p = s /\ Phone_valid s = true)
  /\ (forall b : Birthday, Birthday_init s = Ok b ->
        value b = s /\ Birthday_valid s = true)
  /\ (forall (v : string) (n : Name) (p : Phone) (b : Birthday),
        value (set_value v n) = v /\ value (set_value v p) = v
        /\ value (set_value v b) = v).
Proof.
  repeat split.
  - unfold Name_init in H. destruct (Str.isalpha s); [|discriminate].
    now injection H as <-.
  - unfold Name_init in H. now destruct (Str.isalpha s).
  - rewrite Phone_init_cases in H. destruct (Phone_valid s); [|discriminate].
    now injection H as <-.
  - rewrite Phone_init_cases in H. now destruct (Phone_valid s).
  - now apply Birthday_init_ok_inv in H.
  - apply Birthday_init_ok_inv in H. unfold Birthday_valid.
    destruct H as [-> _]. reflexivity.
Qed.

Lemma Field_valid_at_construction_witness :
  Name_init "John" = Ok (mkName "John")
  /\ value (mkName "John") = "John" /\ Str.isalpha "John" = true.
Proof.
  split; [reflexivity|].
  exact (proj1 (Field_valid_at_construction "John") (mkName "John") eq_refl).
Defined.

(* ------------------------------------------------------------------ *)
(** ** What [strptime] accepts *)

Section Matchers.

Import Strptime.

Lemma code_inj (a b : ascii) : Str.code a = Str.code b -> a = b.
Proof.
  unfold Str.code. intros H. apply Nat2Z.inj in H.
  rewrite <- (ascii_nat_embedding a), <- (ascii_nat_embedding b).
  now rewrite H.
Qed.

Lemma chr_true (c : ascii) (a : Z) : chr c a = true <-> a = Str.code c.
Proof.
  unfold chr, Str.in_range. rewrite andb_true_iff, !Z.leb_le. lia.
Qed.

Lemma in_one (p : Z -> bool) (s t r : list Z) :
  In (t, r) (one p s) <-> s = (t ++ r)%list /\ tok1 p t.
Proof.
  unfold one, tok1. destruct s as [|a s'].
  - simpl. split; [tauto|]. intros (H & b & -> & _). discriminate.
  - destruct (p a) eqn:E; simpl.
    + split.
      * intros [H|[]]. injection H as <- <-. split; [reflexivity|].
        now exists a.
      * intros (H & b & -> & _). injection H as <- <-. now left.
    + split; [tauto|]. intros (H & b & -> & Hp). injection H as <- _.
      congruence.
Qed.

Lemma in_two (p q : Z -> bool) (s t r : list Z) :
  In (t, r) (two p q s) <-> s = (t ++ r)%list /\ tok2 p q t.
Proof.
  unfold two, tok2. destruct s as [|a [|b s']].
  - simpl. split; [tauto|]. intros (H & a & b & -> & _). discriminate.
  - simpl. split; [tauto|]. intros (H & a' & b & -> & _). discriminate.
  - destruct (p a && q b) eqn:E; simpl.
    + apply andb_true_iff in E. destruct E as [Ep Eq]. split.
      * intros [H|[]]. injection H as <- <-. split; [reflexivity|].
        now exists a, b.
      * intros (H & a' & b' & -> & _). injection H as <- <- <-. now left.
    + split; [tauto|]. intros (H & a' & b' & -> & Hp & Hq).
      injection H as <- <- _. rewrite Hp, Hq in E. discriminate.
Qed.

Lemma in_alt (m1 m2 : matcher) (s : list Z) (x : list Z * list Z) :
  In x (alt m1 m2 s) <-> In x (m1 s) \/ In x (m2 s).
Proof.
  unfold alt. apply in_app_iff.
Qed.

Lemma in_re_Y (s t r : list Z) :
  In (t, r) (re_Y s) <-> s = (t ++ r)%list /\ year_text t.
Proof.
  unfold re_Y, year_text. split.
  - destruct s as [|a [|b [|c [|d s']]]]; simpl; try tauto.
    destruct (Str.char_isdecimal a) eqn:Ea, (Str.char_isdecimal b) eqn:Eb,
      (Str.char_isdecimal c) eqn:Ec, (Str.char_isdecimal d) eqn:Ed;
      simpl; try tauto.
    intros [H|[]]. injection H as <- <-. split; [reflexivity|].
    exists a, b, c, d. tauto.
  - intros (-> & a & b & c & d & -> & Ha & Hb & Hc & Hd). simpl.
    rewrite Ha, Hb, Hc, Hd. now left.
Qed.

Lemma in_re_d (s t r : list Z) :
  In (t, r) (re_d s) <-> s = (t ++ r)%list /\ day_text t.
Proof.
  unfold re_d, day_text. rewrite !in_alt, !in_two, in_one. tauto.
Qed.

Lemma in_re_m (s t r : list Z) :
  In (t, r) (re_m s) <-> s = (t ++ r)%list /\ month_text t.
Proof.
  unfold re_m, month_text. rewrite !in_alt, !in_two, in_one. tauto.
Qed.

Lemma in_re_dot (s t r : list Z) :
  In (t, r) (re_dot s) <-> s = dot :: r /\ t = [dot].
Proof.
  unfold re_dot. rewrite in_one. unfold tok1, dot. split.
  - intros (-> & a & -> & Ha). apply chr_true in Ha. subst a. now split.
  - intros (-> & ->). split; [reflexivity|]. exists (Str.code ".").
    split; [reflexivity | now apply chr_true].
Qed.

(** The ways the whole expression matches: a day, a dot, a month, a
    dot, a year, and the characters that remain. *)
Lemma in_matches (s d m y r : list Z) :
  In (d, m, y, r) (matches s) <->
  s = (d ++ dot :: m ++ dot :: y ++ r)%list
  /\ day_text d /\ month_text m /\ year_text y.
Proof.
  unfold matches. rewrite in_flat_map. split.
  - intros ([d' r1] & H1 & H). apply in_flat_map in H.
    destruct H as ([x1 r2] & H2 & H). apply in_flat_map in H.
    destruct H as ([m' r3] & H3 & H). apply in_flat_map in H.
    destruct H as ([x2 r4] & H4 & H). apply in_map_iff in H.
    destruct H as ([y' r5] & E & H5). injection E as -> -> -> ->.
    apply in_re_d in H1. apply in_re_dot in H2. apply in_re_m in H3.
    apply in_re_dot in H4. apply in_re_Y in H5.
    destruct H1 as [-> Hd], H2 as [-> _], H3 as [-> Hm], H4 as [-> _],
      H5 as [-> Hy].
    repeat split; assumption.
  - intros (-> & Hd & Hm & Hy).
    exists (d, dot :: m ++ dot :: y ++ r)%list. split.
    { apply in_re_d. now split. }
    apply in_flat_map. exists ([dot], m ++ dot :: y ++ r)%list. split.
    { apply in_re_dot. now split. }
    apply in_flat_map. exists (m, dot :: y ++ r)%list. split.
    { apply in_re_m. now split. }
    apply in_flat_map. exists ([dot], y ++ r)%list. split.
    { apply in_re_dot. now split. }
    apply in_map_iff. exists (y, r). split; [reflexivity|].
    apply in_re_Y. now split.
Qed.

(** Range tests on characters, as facts on their codes. *)
Ltac ranges :=
  unfold notdot, chr, rng, Str.in_range in *;
  change (Str.code " ") with 32 in *;
  change (Str.code ".") with 46 in *;
  change (Str.code "0") with 48 in *;
  change (Str.code "1") with 49 in *;
  change (Str.code "2") with 50 in *;
  change (Str.code "3") with 51 in *;
  change (Str.code "9") with 57 in *;
  rewrite ?andb_true_iff, ?andb_false_iff, ?negb_true_iff, ?Z.leb_le,
    ?Z.leb_gt in *.

Lemma decimal_notdot (c : Z) :
  Str.char_isdecimal c = true -> notdot c = true.
Proof.
  intros H. unfold notdot. destruct (chr "." c) eqn:E; [|reflexivity].
  apply chr_true in E. subst c. vm_compute in H. discriminate H.
Qed.

Lemma all_one (p : Z -> bool) (a : Z) :
  p a = true -> Forall (fun c => p c = true) [a].
Proof.
  intros H. repeat constructor. exact H.
Qed.

Lemma all_two (p : Z -> bool) (a b : Z) :
  p a = true -> p b = true -> Forall (fun c => p c = true) [a; b].
Proof.
  intros Ha Hb. repeat constructor; assumption.
Qed.

Lemma day_text_dotfree (t : list Z) :
  day_text t -> Forall (fun c => notdot c = true) t.
Proof.
  unfold day_text, tok1, tok2.
  intros [H|[H|[H|[H|H]]]];
    [destruct H as (a & b & -> & Ha & Hb) ..
    | destruct H as (a & -> & Ha)
    | destruct H as (a & b & -> & Ha & Hb)];
    [apply all_two .. | apply all_one | apply all_two];
    try (now apply decimal_notdot); ranges; lia.
Qed.

Lemma month_text_dotfree (t : list Z) :
  month_text t -> Forall (fun c => notdot c = true) t.
Proof.
  unfold month_text, tok1, tok2.
  intros [H|[H|H]];
    [destruct H as (a & b & -> & Ha & Hb) ..
    | destruct H as (a & -> & Ha)];
    [apply all_two .. | apply all_one];
    ranges; lia.
Qed.

(** Text cut at its first dot is cut in one way only. *)
Lemma cut_at_dot_unique (t t' r r' : list Z) :
  Forall (fun c => notdot c = true) t ->
  Forall (fun c => notdot c = true) t' ->
  (t ++ dot :: r)%list = (t' ++ dot :: r')%list -> t = t' /\ r = r'.
Proof.
  revert t'. induction t as [|a t IH]; intros [|a' t'] Ht Ht' E; simpl in E.
  - injection E as ->. now split.
  - injection E as <- _. inversion Ht' as [|? ? Hn _]; subst.
    discriminate Hn.
  - injection E as -> _. inversion Ht as [|? ? Hn _]; subst.
    discriminate Hn.
  - injection E as <- E. inversion Ht; subst. inversion Ht'; subst.
    destruct (IH t') as [-> ->]; auto.
Qed.

Lemma year_text_cut_unique (y y' r r' : list Z) :
  year_text y -> year_text y' -> (y ++ r)%list = (y' ++ r')%list ->
  y = y' /\ r = r'.
Proof.
  intros (a & b & c & d & -> & _) (a' & b' & c' & d' & -> & _) E.
  simpl in E. injection E as <- <- <- <- <-. now split.
Qed.

Lemma matches_unique (s : list Z)
  (x x' : list Z * list Z * list Z * list Z) :
  In x (matches s) -> In x' (matches s) -> x = x'.
Proof.
  destruct x as [[[d m] y] r], x' as [[[d' m'] y'] r'].
  rewrite !in_matches. intros (-> & Hd & Hm & Hy) (E & Hd' & Hm' & Hy').
  apply cut_at_dot_unique in E; auto using day_text_dotfree.
  destruct E as [<- E].
  apply cut_at_dot_unique in E; auto using month_text_dotfree.
  destruct E as [<- E].
  apply year_text_cut_unique in E; auto. destruct E as [<- <-]. reflexivity.
Qed.

Lemma regex_match_spec (s : list Z)
  (x : list Z * list Z * list Z * list Z) :
  regex_match s = Some x <-> In x (matches s).
Proof.
  unfold regex_match. split.
  - destruct (matches s) as [|x0 l]; simpl; [discriminate|].
    intros H. injection H as ->. now left.
  - intros H. destruct (matches s) as [|x0 l] eqn:E; [destruct H|].
    simpl. f_equal. apply (matches_unique s); rewrite E; [now left | exact H].
Qed.

Lemma append_empty (s : string) : s ++ "" = s.
Proof.
  induction s as [|a s IH]; simpl; [reflexivity | now rewrite IH].
Qed.

Lemma nonempty_false (s : string) : Str.nonempty s = false <-> s = "".
Proof.
  destruct s; simpl; split; congruence.
Qed.

(** What [strptime] parses, in terms of the regular expression. *)
Lemma strptime_ok (s : string) (t : date) :
  strptime_dmY s = Ok t <->
  exists d m y,
    Str.decode s = (d ++ dot :: m ++ dot :: y)%list
    /\ day_text d /\ month_text m /\ year_text y
    /\ Date.new (Str.int_chars y) (Str.int_chars m) (Str.int_chars d) = Ok t.
Proof.
  unfold strptime_dmY. split.
  - destruct (regex_match (Str.decode s)) as [[[[d m] y] r]|] eqn:E;
      [|discriminate].
    apply regex_match_spec, in_matches in E.
    destruct r as [|c r]; [|discriminate].
    rewrite app_nil_r in E. intros H. exists d, m, y. tauto.
  - intros (d & m & y & E & Hd & Hm & Hy & H).
    assert (R : regex_match (Str.decode s) = Some (d, m, y, [])).
    { apply regex_match_spec, in_matches. rewrite app_nil_r. tauto. }
    rewrite R. exact H.
Qed.

Lemma Date_new_ok (y m d : Z) (t : date) :
  Date.new y m d = Ok t <-> Date.valid y m d = true /\ t = mkDate y m d.
Proof.
  unfold Date.new, Date.valid.
  destruct (1 <=? y), (y <=? 9999), (1 <=? m), (m <=? 12), (1 <=? d),
    (d <=? days_in_month y m); simpl; split;
    try discriminate; try (intros [H _]; discriminate H).
  - intros H. injection H as <-. now split.
  - intros [_ ->]. reflexivity.
Qed.

Lemma days_in_month_le_31 (y m : Z) : days_in_month y m <= 31.
Proof.
  unfold days_in_month.
  repeat match goal with |- context [if ?c then _ else _] => destruct c end;
    lia.
Qed.

Lemma valid_bounds (y m d : Z) :
  Date.valid y m d = true -> 1 <= m <= 12 /\ 1 <= d <= 31.
Proof.
  unfold Date.valid. rewrite !andb_true_iff, !Z.leb_le.
  pose proof (days_in_month_le_31 y m). lia.
Qed.

Lemma digits_2 (t : string) :
  digits 2 t <->
  exists a b, t = String a (String b "")
              /\ ascii_digit a = true /\ ascii_digit b = true.
Proof.
  unfold digits, every, chars. split.
  - destruct t as [|a [|b [|c t]]]; simpl; intros [L H]; try discriminate.
    inversion H as [|? ? Ha H']; subst. inversion H'; subst. now exists a, b.
  - intros (a & b & -> & Ha & Hb).
    split; [reflexivity | repeat constructor; assumption].
Qed.

Lemma digits_4 (t : string) :
  digits 4 t <->
  exists a b c d,
    t = String a (String b (String c (String d "")))
    /\ ascii_digit a = true /\ ascii_digit b = true
    /\ ascii_digit c = true /\ ascii_digit d = true.
Proof.
  unfold digits, every, chars. split.
  - destruct t as [|a [|b [|c [|d [|e t]]]]]; simpl; intros [L H];
      try discriminate.
    inversion H as [|? ? Ha H1]; subst. inversion H1 as [|? ? Hb H2]; subst.
    inversion H2 as [|? ? Hc H3]; subst. inversion H3; subst.
    exists a, b, c, d. tauto.
  - intros (a & b & c & d & -> & Ha & Hb & Hc & Hd).
    split; [reflexivity | repeat constructor; assumption].
Qed.

Lemma strptime_raises_ValueError (s : string) (e : exn) :
  strptime_dmY s = Raise e -> exists msg, e = ValueError msg.
Proof.
  unfold strptime_dmY, Date.new.
  destruct (regex_match (Str.decode s)) as [[[[d m] y] [|c r]]|].
  - repeat match goal with |- context [if ?c then _ else _] => destruct c end;
      intros H; try discriminate H; injection H as <-; eexists; reflexivity.
  - intros H. injection H as <-. eexists. reflexivity.
  - intros H. injection H as <-. eexists. reflexivity.
Qed.

(** C4 does not hold as stated.  [Birthday("1.1.1990")] succeeds, with
    a day and a month of one digit each. *)
Lemma Birthday_accepts_one_digit :
  Birthday_init "1.1.1990" = Ok (mkBirthday "1.1.1990" (mkDate 1990 1 1))
  /\ ~ strict_text "1.1.1990".
Proof.
  split; [reflexivity|].
  intros (ds & ms & ys & E & Hd & _).
  apply digits_2 in Hd. destruct Hd as (a & b & -> & _).
  simpl in E. discriminate E.
Qed.

(** The texts [Birthday] accepts and the instance it builds. *)
Lemma Birthday_init_parts (s : string) (b : Birthday) :
  Birthday_init s = Ok b <->
  exists ds ms ys,
    Str.decode s = (ds ++ dot :: ms ++ dot :: ys)%list
    /\ day_text ds /\ month_text ms /\ year_text ys
    /\ Date.valid (Str.int_chars ys) (Str.int_chars ms) (Str.int_chars ds)
       = true
    /\ b = mkBirthday s
             (mkDate (Str.int_chars ys) (Str.int_chars ms)
                (Str.int_chars ds)).
Proof.
  split.
  - intros H. apply Birthday_init_ok_inv in H. destruct H as [H Hv].
    apply strptime_ok in H.
    destruct H as (d & m & y & E & Hd & Hm & Hy & H).
    apply Date_new_ok in H. destruct H as [V Hb].
    exists d, m, y. repeat split; try assumption.
    destruct b as [bv bd]. simpl in Hv, Hb. subst. reflexivity.
  - intros (d & m & y & E & Hd & Hm & Hy & V & ->).
    assert (H : strptime_dmY s
                = Ok (mkDate (Str.int_chars y) (Str.int_chars m)
                        (Str.int_chars d))).
    { apply strptime_ok. exists d, m, y. repeat split; try assumption.
      now apply Date_new_ok. }
    unfold Birthday_init. rewrite H. reflexivity.
Qed.

Lemma Birthday_init_total (s : string) :
  (exists b, Birthday_init s = Ok b)
  \/ Birthday_init s = Raise (ValueError "Invalid date format. Use DD.MM.YYYY").
Proof.
  unfold Birthday_init. destruct (strptime_dmY s) as [d|e] eqn:E.
  - left. eexists. reflexivity.
  - right. apply strptime_raises_ValueError in E. destruct E as [msg ->].
    reflexivity.
Qed.

(** C4, as the code has it.  [Birthday(s)] succeeds exactly when the
    characters of [s] are a day, a dot, a month, a dot and a year, where
    the day is one of 1 to 9, or 0 and then one of 1 to 9, or 1 or 2 and
    then a decimal digit, or 3 and then 0 or 1, or a blank and then one
    of 1 to 9; the month is one of 1 to 9, or 0 and then one of 1 to 9,
    or 1 and then one of 0 to 2; the year is four decimal digits; and
    the three numbers are a date of the calendar.  The digits named are
    the ASCII ones, a decimal digit is one of any script.  The instance
    then holds [s] and that date; in every other case the constructor
    raises its [ValueError].  So [31.02.1990] and [1990-01-01] fail,
    [01.01.1990] and [1.1.1990] succeed; a year or the second digit of a
    day may be in Arabic-Indic digits, the first digit of a day may
    not. *)
Theorem Birthday_accepts (s : string) :
  (forall b : Birthday,
     Birthday_init s = Ok b <->
     exists ds ms ys,
       Str.decode s = (ds ++ dot :: ms ++ dot :: ys)%list
       /\ day_text ds /\ month_text ms /\ year_text ys
       /\ Date.valid (Str.int_chars ys) (Str.int_chars ms)
            (Str.int_chars ds) = true
       /\ b = mkBirthday s
                (mkDate (Str.int_chars ys) (Str.int_chars ms)
                   (Str.int_chars ds)))
  /\ ((exists b, Birthday_init s = Ok b)
      \/ Birthday_init s =
         Raise (ValueError "Invalid date format. Use DD.MM.YYYY"))
  /\ is_ok (Birthday_init "31.02.1990") = false
  /\ is_ok (Birthday_init "1990-01-01") = false
  /\ Birthday_init "01.01.1990"
     = Ok (mkBirthday "01.01.1990" (mkDate 1990 1 1))
  /\ Birthday_init "1.1.1990" = Ok (mkBirthday "1.1.1990" (mkDate 1990 1 1))
  /\ Birthday_init "01.01.١٩٩٠"
     = Ok (mkBirthday "01.01.١٩٩٠" (mkDate 1990 1 1))
  /\ Birthday_init "1٢.01.1990"
     = Ok (mkBirthday "1٢.01.1990" (mkDate 1990 1 12))
  /\ is_ok (Birthday_init "٠١.01.1990") = false.
Proof.
  split; [|split; [|repeat split]].
  - intros b. apply Birthday_init_parts.
  - apply Birthday_init_total.
Qed.

End Matchers.

(* ------------------------------------------------------------------ *)
(** ** Removing and changing a phone *)

(** What [list.remove] does: it drops the first item that is the very
    object given, and raises when the list holds no such item. *)
Lemma list_remove_ok (p : Phone) (l l' : list Phone) :
  Rec.list_remove p l = Ok l' ->
  exists l1 x l2,
    l = (l1 ++ x :: l2)%list /\ phone_id x = phone_id p
    /\ Forall (fun y => phone_id y <> phone_id p) l1
    /\ l' = (l1 ++ l2)%list.
Proof.
  revert l'. induction l as [|y l IH]; simpl; intros l' H; [discriminate|].
  unfold Rec.phone_eq in H. destruct (Nat.eqb_spec (phone_id y) (phone_id p)).
  - injection H as <-. exists [], y, l. repeat split; auto.
  - destruct (Rec.list_remove p l) as [l0|]; [|discriminate].
    simpl in H. injection H as <-.
    destruct (IH l0 eq_refl) as (l1 & x & l2 & -> & Hx & Hl1 & ->).
    exists (y :: l1), x, l2. repeat split; auto.
Qed.

Lemma list_remove_absent (p : Phone) (l : list Phone) :
  Forall (fun y => phone_id y <> phone_id p) l ->
  Rec.list_remove p l = Raise (ValueError "list.remove(x): x not in list").
Proof.
  induction 1 as [|y l Hy _ IH]; simpl; [reflexivity|].
  unfold Rec.phone_eq. destruct (Nat.eqb_spec (phone_id y) (phone_id p)).
  - contradiction.
  - now rewrite IH.
Qed.

(** A phone object that the record does not hold is never removed,
    whatever its value. *)
Lemma remove_phone_not_held (p : Phone) (r : record) :
  Forall (fun y => phone_id y <> phone_id p) (phones r) ->
  Rec.remove_phone p r
  = (r, Raise (ValueError "list.remove(x): x not in list")).
Proof.
  intros H. unfold Rec.remove_phone. now rewrite (list_remove_absent p _ H).
Qed.

(** C1, the code on a phone of equal value.  John holds one phone with
    the value 1234567890; [remove_phone] is given another Phone object
    with the same value, as the [change] command builds it: the call
    raises and the phones stay, although an entry has that value.  So
    after [add John 1234567890] the command
    [change John 1234567890 1112223333] reports that the phone was not
    found. *)
Theorem remove_phone_equal_value_raises :
  Rec.remove_phone (mkPhone 1 "1234567890") john_one
  = (john_one, Raise (ValueError "list.remove(x): x not in list"))
  /\ In "1234567890" (map value (phones john_one))
  /\ (let r := main (mkDate 2024 3 1)
                 ["add John 1234567890";
                  "change John 1234567890 1112223333"] in
      AddressBook.find "John" (book (final r)) = Some john_one
      /\ stdout (final r)
         = [Line "Welcome to the assistant bot!";
            Prompt "Enter a command: "; Line "Contact added.";
            Prompt "Enter a command: "; Line "Phone not found.";
            Prompt "Enter a command: "]).
Proof.
  split; [reflexivity|]. split; [now left|]. split; reflexivity.
Qed.

(** C2 does not hold as stated.  After [add John 1234567890] and
    [add John 0987654321] the command [change John 1234567890 1112223333]
    prints that the phone was not found and leaves both phones. *)
Lemma change_John_not_found :
  let r := main (mkDate 2024 3 1)
             ["add John 1234567890"; "add John 0987654321";
              "change John 1234567890 1112223333"] in
  phone_values "John" (final r) = Some ["1234567890"; "0987654321"]
  /\ phone_values "John" (final r) <> Some ["1112223333"; "0987654321"]
  /\ stdout (final r)
     = [Line "Welcome to the assistant bot!";
        Prompt "Enter a command: "; Line "Contact added.";
        Prompt "Enter a command: "; Line "Contact updated.";
        Prompt "Enter a command: "; Line "Phone not found.";
        Prompt "Enter a command: "].
Proof.
  vm_compute. repeat split. discriminate.
Qed.

(** C2, as the code has it.  The two calls of the [change] branch,
    [remove_phone] and then [add_phone], put the new phone at the end:
    when the removal succeeds, the phone removed is the first one that
    is the object given, and the phones become the other ones, in their
    order, followed by the new phone. *)
Theorem change_appends_new_phone (r r' : record) (p q : Phone) :
  Rec.remove_phone p r = (r', Ok tt) ->
  exists l1 x l2,
    phones r = (l1 ++ x :: l2)%list /\ phone_id x = phone_id p
    /\ Forall (fun y => phone_id y <> phone_id p) l1
    /\ phones (Rec.add_phone q r') = (l1 ++ l2 ++ [q])%list.
Proof.
  unfold Rec.remove_phone.
  destruct (Rec.list_remove p (phones r)) as [l|] eqn:E; [|discriminate].
  intros H. injection H as <-.
  destruct (list_remove_ok _ _ _ E) as (l1 & x & l2 & Hr & Hx & Hl1 & ->).
  exists l1, x, l2. simpl. rewrite <- app_assoc. auto.
Qed.

(** In the scenario: John holds 1234567890 and 0987654321, the first is
    removed and 1112223333 added; the phones are then 0987654321 and
    1112223333, in this order. *)
Lemma change_appends_new_phone_witness :
  Rec.remove_phone (mkPhone 0 "1234567890") john_two
  = (mkRecord (mkName "John") [mkPhone 1 "0987654321"] None, Ok tt)
  /\ map value
       (phones (Rec.add_phone (mkPhone 2 "1112223333")
                  (mkRecord (mkName "John") [mkPhone 1 "0987654321"] None)))
     = ["0987654321"; "1112223333"]
  /\ exists l1 x l2,
       phones john_two = (l1 ++ x :: l2)%list /\ phone_id x = 0%nat
       /\ Forall (fun y => phone_id y <> 0%nat) l1
       /\ phones (Rec.add_phone (mkPhone 2 "1112223333")
                    (mkRecord (mkName "John") [mkPhone 1 "0987654321"] None))
          = (l1 ++ l2 ++ [mkPhone 2 "1112223333"])%list.
Proof.
  split; [reflexivity|]. split; [reflexivity|].
  exact (change_appends_new_phone john_two _
           (mkPhone 0 "1234567890") (mkPhone 2 "1112223333") eq_refl).
Defined.

(* ------------------------------------------------------------------ *)
(** ** The command loop *)

(** C5, the code on a blank line.  An empty line ends the process
    with an exception that nothing catches, whatever lines follow it,
    and so do [phone] and [change] with too few arguments. *)
Theorem blank_line_is_fatal (today : date) (rest : list string) :
  how (main today ("" :: rest)) = Uncaught (unpack_error 1 0)
  /\ unread (main today ("" :: rest)) = rest
  /\ how (main today ("phone" :: rest)) = Uncaught (unpack_error 1 0)
  /\ how (main today ("change John" :: rest)) = Uncaught (unpack_error 3 1)
  /\ unpack_error 1 0
     = ValueError "not enough values to unpack (expected at least 1, got 0)".
Proof.
  repeat split.
Qed.

(* ------------------------------------------------------------------ *)
(** ** Day numbers of dates *)

Section Ordinals.

Ltac months m :=
  assert (m = 1 \/ m = 2 \/ m = 3 \/ m = 4 \/ m = 5 \/ m = 6 \/ m = 7
          \/ m = 8 \/ m = 9 \/ m = 10 \/ m = 11 \/ m = 12) as Hmonths by lia;
  repeat (destruct Hmonths as [Hmonths|Hmonths]; [subst m|]); [..|subst m].

Lemma valid_iff (y m d : Z) :
  Date.valid y m d = true <->
  1 <= y <= 9999 /\ 1 <= m <= 12 /\ 1 <= d <= days_in_month y m.
Proof.
  unfold Date.valid. rewrite !andb_true_iff, !Z.leb_le. lia.
Qed.

Lemma days_before_year_succ (y : Z) :
  days_before_year (y + 1)
  = days_before_year y + 365 + (if is_leap y then 1 else 0).
Proof.
  unfold days_before_year, is_leap. cbv zeta.
  replace (y + 1 - 1) with y by lia.
  destruct (Z.eqb_spec (y mod 4) 0), (Z.eqb_spec (y mod 100) 0),
    (Z.eqb_spec (y mod 400) 0); simpl; Z.div_mod_to_equations; lia.
Qed.

Lemma toordinal_bounds (y m d : Z) :
  Date.valid y m d = true ->
  days_before_year y + 1 <= toordinal (mkDate y m d)
  /\ toordinal (mkDate y m d)
     <= days_before_year y + 365 + (if is_leap y then 1 else 0).
Proof.
  rewrite valid_iff. intros (_ & Hm & Hd).
  unfold toordinal, days_before_month, days_before_month_common,
    days_in_month in *. simpl.
  months m; destruct (is_leap y); simpl in *; lia.
Qed.

Lemma toordinal_mono (y m d m' d' : Z) :
  Date.valid y m d = true -> Date.valid y m' d' = true ->
  Date.ltb (mkDate y m d) (mkDate y m' d') = false ->
  toordinal (mkDate y m' d') <= toordinal (mkDate y m d).
Proof.
  rewrite !valid_iff. intros (_ & Hm & Hd) (_ & Hm' & Hd').
  unfold Date.ltb. simpl. rewrite Z.ltb_irrefl, Z.eqb_refl. simpl.
  rewrite orb_false_iff, andb_false_iff, Z.ltb_ge, Z.eqb_neq, Z.ltb_ge.
  intros [L1 L2].
  unfold toordinal, days_before_month, days_before_month_common,
    days_in_month in *. simpl.
  months m; months m'; try lia; destruct (is_leap y); simpl in *; lia.
Qed.

End Ordinals.

(* ------------------------------------------------------------------ *)
(** ** Days to the next birthday *)

Lemma replace_year_ok (d : date) (y : Z) (t : date) :
  Date.replace_year d y = Ok t <->
  Date.valid y (month d) (day d) = true /\ t = mkDate y (month d) (day d).
Proof.
  unfold Date.replace_year. apply Date_new_ok.
Qed.

Lemma ltb_irrefl (t : date) : Date.ltb t t = false.
Proof.
  unfold Date.ltb. rewrite !Z.ltb_irrefl, !Z.eqb_refl. reflexivity.
Qed.

(** The occurrence in today's year is on or after today. *)
Lemma days_this_year (d today this : date) :
  Date.ok today ->
  Date.replace_year d (year today) = Ok this ->
  Date.ltb this today = false ->
  Rec.next_birthday d today = Ok this /\ 0 <= Date.sub_days this today.
Proof.
  intros Ht Hr Hl. unfold Rec.next_birthday. rewrite Hr. simpl. rewrite Hl.
  split; [reflexivity|].
  apply replace_year_ok in Hr. destruct Hr as [V ->].
  destruct today as [y m' d']. unfold Date.ok in Ht. simpl in *.
  unfold Date.sub_days.
  pose proof (toordinal_mono _ _ _ _ _ V Ht Hl). lia.
Qed.

(** The occurrence in today's year is before today: next year's one. *)
Lemma days_next_year (d today this next : date) :
  Date.ok today ->
  Date.replace_year d (year today) = Ok this ->
  Date.ltb this today = true ->
  Date.replace_year d (year today + 1) = Ok next ->
  Rec.next_birthday d today = Ok next /\ 0 <= Date.sub_days next today.
Proof.
  intros Ht Hr Hl Hn. unfold Rec.next_birthday. rewrite Hr. simpl. rewrite Hl.
  apply replace_year_ok in Hr. destruct Hr as [_ ->].
  unfold Date.replace_year in *. simpl. split; [exact Hn|].
  apply Date_new_ok in Hn. destruct Hn as [V ->].
  destruct today as [y m' d']. unfold Date.ok in Ht. simpl in *.
  unfold Date.sub_days.
  pose proof (toordinal_bounds _ _ _ V) as [L _].
  pose proof (toordinal_bounds _ _ _ Ht) as [_ U].
  rewrite days_before_year_succ in L. lia.
Qed.

Lemma next_birthday_cases (d today nb : date) :
  Rec.next_birthday d today = Ok nb ->
  exists this,
    Date.replace_year d (year today) = Ok this
    /\ ((Date.ltb this today = false /\ nb = this)
        \/ (Date.ltb this today = true
            /\ Date.replace_year d (year today + 1) = Ok nb)).
Proof.
  unfold Rec.next_birthday.
  destruct (Date.replace_year d (year today)) as [this|] eqn:Hr;
    [|discriminate].
  simpl. exists this. split; [reflexivity|].
  destruct (Date.ltb this today).
  - right. split; [reflexivity|].
    apply replace_year_ok in Hr. destruct Hr as [_ ->]. exact H.
  - left. injection H as <-. now split.
Qed.

Lemma next_birthday_nonneg (d today nb : date) :
  Date.ok today -> Rec.next_birthday d today = Ok nb ->
  0 <= Date.sub_days nb today.
Proof.
  intros Ht H. destruct (next_birthday_cases _ _ _ H) as (this & Hr & C).
  destruct C as [[Hl ->]|[Hl Hn]].
  - now apply (days_this_year d).
  - now apply (days_next_year d today this nb).
Qed.

(** C6 does not hold as stated.  Mary, as the constructors build her,
    has her birthday on 29 February: with a today in a common year the
    call raises and returns no number, and so it does when 29 February
    of a leap year is before today. *)
Lemma days_to_birthday_leap_day_raises :
  (b <- Birthday_init "29.02.2000" ;; r <- Rec.init "Mary" ;;
   Ok (Rec.add_birthday b r)) = Ok mary
  /\ Rec.days_to_birthday (mkDate 2023 6 1) mary
     = Raise (ValueError "day is out of range for month")
  /\ Date.ltb (mkDate 2024 2 29) (mkDate 2024 3 1) = true
  /\ Rec.days_to_birthday (mkDate 2024 3 1) mary
     = Raise (ValueError "day is out of range for month").
Proof.
  repeat split.
Qed.

(** C6, as the code has it.  With no birthday the method returns none.
    With a birthday: it returns 0 when the month and day of the birthday
    are those of today; when the month and day exist in today's year as
    a date that is not before today, it returns the days from today to
    that date; when that date is strictly before today and the month and
    day exist in the next year, it returns the days from today to next
    year's date; and every number it returns is non-negative. *)
Theorem days_to_birthday_spec (today : date) (r : record) :
  Date.ok today ->
  (birthday r = None -> Rec.days_to_birthday today r = Ok None)
  /\ (forall b : Birthday, birthday r = Some b ->
      (month (bday_date b) = month today -> day (bday_date b) = day today ->
       Rec.days_to_birthday today r = Ok (Some 0))
      /\ (forall this : date,
            Date.replace_year (bday_date b) (year today) = Ok this ->
            Date.ltb this today = false ->
            Rec.days_to_birthday today r
            = Ok (Some (Date.sub_days this today))
            /\ 0 <= Date.sub_days this today)
      /\ (forall this next : date,
            Date.replace_year (bday_date b) (year today) = Ok this ->
            Date.ltb this today = true ->
            Date.replace_year (bday_date b) (year today + 1) = Ok next ->
            Rec.days_to_birthday today r
            = Ok (Some (Date.sub_days next today))
            /\ 0 <= Date.sub_days next today)
      /\ (forall n : Z,
            Rec.days_to_birthday today r = Ok (Some n) -> 0 <= n)).
Proof.
  intros Ht. unfold Rec.days_to_birthday. split.
  - intros ->. reflexivity.
  - intros b ->. split; [|split; [|split]].
    + intros Hm Hd.
      assert (Hr : Date.replace_year (bday_date b) (year today) = Ok today).
      { apply replace_year_ok. rewrite Hm, Hd. split; [exact Ht|].
        now destruct today. }
      destruct (days_this_year _ _ _ Ht Hr (ltb_irrefl today)) as [-> _].
      simpl. unfold Date.sub_days. do 2 f_equal. lia.
    + intros this Hr Hl.
      destruct (days_this_year _ _ _ Ht Hr Hl) as [-> Hn]. now split.
    + intros this next Hr Hl Hnext.
      destruct (days_next_year _ _ _ _ Ht Hr Hl Hnext) as [-> Hn]. now split.
    + intros n H.
      destruct (Rec.next_birthday (bday_date b) today) as [nb|] eqn:E;
        [|discriminate].
      simpl in H. injection H as <-.
      now apply (next_birthday_nonneg (bday_date b)).
Qed.

(** On 1 March 2024: a birthday on 1 March is today, one on 15 June is
    106 days away, one on 10 January is 315 days away. *)
Lemma days_to_birthday_spec_witness :
  Date.ok (mkDate 2024 3 1)
  /\ Rec.days_to_birthday (mkDate 2024 3 1)
       (with_birthday "Ann" "01.03.1990" (mkDate 1990 3 1)) = Ok (Some 0)
  /\ Rec.days_to_birthday (mkDate 2024 3 1)
       (with_birthday "Mary" "15.06.1995" (mkDate 1995 6 15))
     = Ok (Some 106)
  /\ Rec.days_to_birthday (mkDate 2024 3 1)
       (with_birthday "Bob" "10.01.1980" (mkDate 1980 1 10))
     = Ok (Some 315).
Proof.
  split; [reflexivity|]. split; [|split].
  - exact (proj1 (proj2 (days_to_birthday_spec (mkDate 2024 3 1)
             (with_birthday "Ann" "01.03.1990" (mkDate 1990 3 1)) eq_refl)
             _ eq_refl) eq_refl eq_refl).
  - exact (proj1 (proj1 (proj2 (proj2 (days_to_birthday_spec (mkDate 2024 3 1)
             (with_birthday "Mary" "15.06.1995" (mkDate 1995 6 15)) eq_refl)
             _ eq_refl)) (mkDate 2024 6 15) eq_refl eq_refl)).
  - exact (proj1 (proj1 (proj2 (proj2 (proj2 (days_to_birthday_spec
             (mkDate 2024 3 1)
             (with_birthday "Bob" "10.01.1980" (mkDate 1980 1 10)) eq_refl)
             _ eq_refl))) (mkDate 2024 1 10) (mkDate 2025 1 10)
             eq_refl eq_refl eq_refl)).
Defined.

(* ------------------------------------------------------------------ *)
(** ** Adding records to the address book *)

Lemma get_set_same (k : string) (v : record) (d : dict) :
  Dict.get k (Dict.set k v d) = Some v.
Proof.
  induction d as [|[k' v'] d IH]; simpl.
  - now rewrite String.eqb_refl.
  - destruct (String.eqb_spec k' k); simpl.
    + now rewrite String.eqb_refl.
    + destruct (String.eqb_spec k' k); [contradiction | exact IH].
Qed.

Lemma in_set (k : string) (v : record) (d : dict) (kv : string * record) :
  In kv (Dict.set k v d) -> kv = (k, v) \/ In kv d.
Proof.
  induction d as [|[k' v'] d IH]; simpl.
  - intros [<-|[]]. now left.
  - destruct (String.eqb_spec k' k); simpl.
    + intros [<-|H]; auto.
    + intros [<-|H]; auto. destruct (IH H); auto.
Qed.

Lemma in_set_same (k : string) (v : record) (d : dict) :
  In (k, v) (Dict.set k v d).
Proof.
  induction d as [|[k' v'] d IH]; simpl.
  - now left.
  - destruct (String.eqb_spec k' k); simpl; auto.
Qed.

Lemma in_keys_set (k k0 : string) (v : record) (d : dict) :
  In k0 (Dict.keys (Dict.set k v d)) -> k0 = k \/ In k0 (Dict.keys d).
Proof.
  unfold Dict.keys. rewrite !in_map_iff. intros ([k1 v1] & <- & H).
  apply in_set in H. destruct H as [H|H].
  - injection H as -> _. now left.
  - right. now exists (k1, v1).
Qed.

Lemma set_wf (k : string) (v : record) (d : dict) :
  Dict.wf d -> Dict.wf (Dict.set k v d).
Proof.
  unfold Dict.wf. induction d as [|[k' v'] d IH]; simpl; intros H.
  - repeat constructor. intros [].
  - inversion H as [|? ? Hn Hd]; subst.
    destruct (String.eqb_spec k' k); simpl.
    + subst k'. now constructor.
    + constructor; [|now apply IH].
      intros Hin. apply in_keys_set in Hin. destruct Hin; [congruence|].
      contradiction.
Qed.

Lemma wf_functional (d : dict) (k : string) (v v' : record) :
  Dict.wf d -> In (k, v) d -> In (k, v') d -> v = v'.
Proof.
  unfold Dict.wf. induction d as [|[k0 v0] d IH]; simpl; intros H H1 H2.
  - destruct H1.
  - inversion H as [|? ? Hn Hd]; subst.
    assert (K : forall w, In (k0, w) d -> False).
    { intros w Hw. apply Hn. unfold Dict.keys. apply in_map_iff.
      now exists (k0, w). }
    destruct H1 as [E1|H1], H2 as [E2|H2].
    + congruence.
    + injection E1 as -> _. destruct (K _ H2).
    + injection E2 as -> _. destruct (K _ H1).
    + now apply IH.
Qed.

(** Insertion order: a new key goes last, a key already there keeps
    its place. *)
Lemma set_new_key (k : string) (v : record) (d : dict) :
  Dict.get k d = None -> Dict.set k v d = (d ++ [(k, v)])%list.
Proof.
  induction d as [|[k' v'] d IH]; simpl; [reflexivity|].
  destruct (String.eqb k' k); [discriminate|].
  intros H. now rewrite IH.
Qed.

Lemma set_old_key (k : string) (v : record) (d : dict) :
  Dict.get k d <> None -> Dict.keys (Dict.set k v d) = Dict.keys d.
Proof.
  induction d as [|[k' v'] d IH]; simpl; [congruence|].
  destruct (String.eqb_spec k' k); simpl.
  - now subst.
  - intros H. now rewrite IH.
Qed.

Lemma set_keyed (k : string) (v : record) (d : dict) :
  k = value (name v) -> keyed_by_name d -> keyed_by_name (Dict.set k v d).
Proof.
  unfold keyed_by_name. intros Hk Hd. apply Forall_forall. intros kv H.
  apply in_set in H. destruct H as [->|H].
  - exact Hk.
  - revert kv H. now apply Forall_forall.
Qed.

(** C8.  After [add_record(r1)] and [add_record(r2)] with the same name
    text, the directory finds [r2] under that name, holds that key once,
    and holds no other record under it; keys stay unique, and if every
    record sat under its name before, every record does after.  From
    the empty directory the two calls leave one entry. *)
Theorem add_record_twice_overwrites (b : addressbook) (r1 r2 : record) :
  Dict.wf (records b) ->
  value (name r1) = value (name r2) ->
  let b' := AddressBook.add_record r2 (AddressBook.add_record r1 b) in
  AddressBook.find (value (name r2)) b' = Some r2
  /\ count_occ string_dec (Dict.keys (records b')) (value (name r2)) = 1%nat
  /\ (forall r, In (value (name r2), r) (records b') -> r = r2)
  /\ Dict.wf (records b')
  /\ (keyed_by_name (records b) -> keyed_by_name (records b'))
  /\ records (AddressBook.add_record r2
                (AddressBook.add_record r1 AddressBook.init))
     = [(value (name r2), r2)].
Proof.
  intros Hwf Hn b'.
  assert (Hwf' : Dict.wf (records b')).
  { unfold b'. simpl. now apply set_wf, set_wf. }
  assert (Hin : In (value (name r2), r2) (records b')).
  { unfold b'. simpl. apply in_set_same. }
  split; [|split; [|split; [|split; [|split]]]].
  - unfold b', AddressBook.find. simpl. apply get_set_same.
  - apply NoDup_count_occ'; [exact Hwf'|].
    unfold Dict.keys. apply in_map_iff. exists (value (name r2), r2).
    now split.
  - intros r H. symmetry.
    now apply (wf_functional (records b') (value (name r2))).
  - exact Hwf'.
  - intros Hk. unfold b'. simpl. now repeat apply set_keyed.
  - unfold AddressBook.add_record, AddressBook.init. cbn [records Dict.set].
    rewrite Hn, String.eqb_refl. reflexivity.
Qed.

(** An address book with Mary, then John with two phones replaced by a
    John without phones: still two entries, John last and empty. *)
Lemma add_record_twice_overwrites_witness :
  Dict.wf [("Mary", with_birthday "Mary" "15.06.1995" (mkDate 1995 6 15))]
  /\ records
       (AddressBook.add_record john_empty
          (AddressBook.add_record john_two
             (mkBook
                [("Mary",
                  with_birthday "Mary" "15.06.1995" (mkDate 1995 6 15))])))
     = [("Mary", with_birthday "Mary" "15.06.1995" (mkDate 1995 6 15));
        ("John", john_empty)]
  /\ AddressBook.find "John"
       (AddressBook.add_record john_empty
          (AddressBook.add_record john_two
             (mkBook
                [("Mary",
                  with_birthday "Mary" "15.06.1995" (mkDate 1995 6 15))])))
     = Some john_empty.
Proof.
  assert (W : Dict.wf
                [("Mary",
                  with_birthday "Mary" "15.06.1995" (mkDate 1995 6 15))]).
  { repeat constructor. intros []. }
  split; [exact W|]. split; [reflexivity|].
  exact (proj1 (add_record_twice_overwrites
                  (mkBook
                     [("Mary",
                       with_birthday "Mary" "15.06.1995" (mkDate 1995 6 15))])
                  john_two john_empty W eq_refl)).
Defined.

(* ------------------------------------------------------------------ *)
(** ** Upcoming birthdays *)

Lemma upcoming_loop_spec (today : date) (days : Z) (rs : list record) :
  Forall (returns today) rs ->
  forall acc : list string,
    AddressBook.upcoming_loop today days rs acc
    = Ok (acc ++ map record_name (filter (in_window today days) rs))%list.
Proof.
  induction 1 as [|r rs [o Hr] _ IH]; intros acc; simpl.
  - now rewrite app_nil_r.
  - unfold in_window. unfold Rec.days_to_birthday in *.
    destruct (birthday r) as [b|].
    + destruct (Rec.next_birthday (bday_date b) today) as [nb|];
        [|discriminate].
      simpl.
      destruct ((0 <=? Date.sub_days nb today)
                && (Date.sub_days nb today <? days)); rewrite IH.
      * simpl. now rewrite <- app_assoc.
      * reflexivity.
    + apply IH.
Qed.

(** C7 does not hold as stated.  On 25 February 2023 Ann's birthday is
    one day away, but with Mary, born on 29 February, in the directory
    the call raises and returns no names. *)
Lemma upcoming_birthdays_leap_day_raises :
  Rec.days_to_birthday (mkDate 2023 2 25) ann = Ok (Some 1)
  /\ AddressBook.get_upcoming_birthdays (mkDate 2023 2 25) 7
       (AddressBook.add_record mary
          (AddressBook.add_record ann AddressBook.init))
     = Raise (ValueError "day is out of range for month").
Proof.
  split; reflexivity.
Qed.

(** C7, as the code has it.  When [days_to_birthday] returns for every
    record of the directory, [get_upcoming_birthdays] with 7 days
    returns the names of exactly the records whose days to the next
    birthday are at least 0 and less than 7, in the order of the
    directory, which is the order of insertion. *)
Theorem upcoming_birthdays_spec (today : date) (b : addressbook) :
  Forall (returns today) (Dict.values (records b)) ->
  AddressBook.get_upcoming_birthdays today 7 b
  = Ok (map record_name
          (filter (in_window today 7) (Dict.values (records b))))
  /\ (forall (r : record) (n : Z),
        Rec.days_to_birthday today r = Ok (Some n) ->
        (in_window today 7 r = true <-> 0 <= n < 7))
  /\ (forall r : record,
        Rec.days_to_birthday today r = Ok None -> in_window today 7 r = false).
Proof.
  intros H. split; [|split].
  - unfold AddressBook.get_upcoming_birthdays.
    now rewrite (upcoming_loop_spec today 7 _ H []).
  - intros r n Hn. unfold in_window. rewrite Hn.
    rewrite andb_true_iff, Z.leb_le, Z.ltb_lt. tauto.
  - intros r Hn. unfold in_window. now rewrite Hn.
Qed.

(** On 1 March 2024 Bob's birthday is 6 days away and is listed, Eve's
    is 7 days away and is not, Ann's is past, John has none. *)
Lemma upcoming_birthdays_spec_witness :
  Forall (returns (mkDate 2024 3 1)) (Dict.values (records three_book))
  /\ Rec.days_to_birthday (mkDate 2024 3 1) bob = Ok (Some 6)
  /\ Rec.days_to_birthday (mkDate 2024 3 1) eve = Ok (Some 7)
  /\ AddressBook.get_upcoming_birthdays (mkDate 2024 3 1) 7 three_book
     = Ok ["Bob"].
Proof.
  assert (R : Forall (returns (mkDate 2024 3 1))
                (Dict.values (records three_book))).
  { repeat constructor; eexists; reflexivity. }
  split; [exact R|]. split; [reflexivity|]. split; [reflexivity|].
  exact (proj1 (upcoming_birthdays_spec (mkDate 2024 3 1) three_book R)).
Defined.

(* ------------------------------------------------------------------ *)
(** ** A birthday on 29 February in a common year *)

Lemma Date_new_raises (y m d : Z) (e : exn) :
  Date.new y m d = Raise e -> exists msg, e = ValueError msg.
Proof.
  unfold Date.new.
  repeat match goal with |- context [if ?c then _ else _] => destruct c end;
    intros H; try discriminate H; injection H as <-; eexists; reflexivity.
Qed.

Lemma next_birthday_raises (d today : date) (e : exn) :
  Rec.next_birthday d today = Raise e -> exists msg, e = ValueError msg.
Proof.
  unfold Rec.next_birthday, Date.replace_year.
  destruct (Date.new (year today) (month d) (day d)) as [nb|e0] eqn:E; simpl.
  - destruct (Date.ltb nb today); [|discriminate]. apply Date_new_raises.
  - intros H. injection H as <-. now apply Date_new_raises in E.
Qed.

Lemma leap_day_invalid (y : Z) : is_leap y = false -> Date.valid y 2 29 = false.
Proof.
  intros H. unfold Date.valid, days_in_month. rewrite H. simpl.
  now rewrite !andb_false_r.
Qed.

Lemma next_birthday_leap_day (d today : date) :
  month d = 2 -> day d = 29 -> is_leap (year today) = false ->
  exists msg, Rec.next_birthday d today = Raise (ValueError msg).
Proof.
  intros Hm Hd Hl.
  destruct (Rec.next_birthday d today) as [nb|e] eqn:E.
  - apply next_birthday_cases in E. destruct E as (this & Hr & _).
    apply replace_year_ok in Hr. destruct Hr as [V _].
    rewrite Hm, Hd, (leap_day_invalid _ Hl) in V. discriminate.
  - apply next_birthday_raises in E. destruct E as [msg ->]. now exists msg.
Qed.

Lemma upcoming_loop_leap_day (today : date) (days : Z) (rs : list record) :
  is_leap (year today) = false ->
  Exists leap_day rs ->
  forall acc : list string,
    exists msg,
      AddressBook.upcoming_loop today days rs acc = Raise (ValueError msg).
Proof.
  intros Hl. induction rs as [|r rs IH]; intros Hex acc.
  - inversion Hex.
  - simpl. destruct (birthday r) as [b|] eqn:Hb.
    + destruct (Rec.next_birthday (bday_date b) today) as [nb|e] eqn:E.
      * simpl. assert (Hrs : Exists leap_day rs).
        { inversion Hex as [? ? (b' & Hb' & Hm & Hd)|]; subst; [|assumption].
          rewrite Hb in Hb'. injection Hb' as <-.
          destruct (next_birthday_leap_day _ _ Hm Hd Hl) as [msg Hmsg].
          rewrite Hmsg in E. discriminate. }
        destruct ((0 <=? Date.sub_days nb today)
                  && (Date.sub_days nb today <? days)); now apply IH.
      * simpl. apply next_birthday_raises in E. destruct E as [msg ->].
        now exists msg.
    + apply IH. inversion Hex as [? ? (b' & Hb' & _)|]; subst; [|assumption].
      rewrite Hb in Hb'. discriminate.
Qed.

(** C10.  With a record whose birthday is 29 February in the directory
    and a current year that is not a leap year,
    [get_upcoming_birthdays] raises a [ValueError]; the [birthdays]
    handler returns the text of that error, and the command prints that
    text and nothing else, leaving the directory as it was. *)
Theorem birthdays_leap_day_error (today : date) (args : list string)
  (w : world) :
  Exists leap_day (Dict.values (records (book w))) ->
  is_leap (year today) = false ->
  exists msg,
    AddressBook.get_upcoming_birthdays today 7 (book w)
    = Raise (ValueError msg)
    /\ birthdays today args w = (w, Ok msg)
    /\ dispatch today "birthdays" args w
       = (mkWorld (book w) (next_oid w) (stdout w ++ [Line msg]), Ok tt).
Proof.
  intros Hex Hl.
  destruct (upcoming_loop_leap_day today 7 _ Hl Hex []) as [msg Hmsg].
  exists msg. split; [exact Hmsg|].
  assert (Hb : birthdays today args w = (w, Ok msg)).
  { unfold birthdays, input_error, mbind.
    unfold AddressBook.get_upcoming_birthdays in Hmsg. 
    unfold AddressBook.get_upcoming_birthdays. rewrite Hmsg. reflexivity. }
  split; [exact Hb|].
  change (dispatch today "birthdays" args w)
    with (mbind (birthdays today args) (fun s => print s) w).
  unfold mbind. rewrite Hb. reflexivity.
Qed.

(** On 25 February 2023, with Ann (one day away) and Mary (born on 29
    February): the command prints the text of the error, not Ann. *)
Lemma birthdays_leap_day_error_witness :
  Exists leap_day (Dict.values (records (book leap_world)))
  /\ is_leap 2023 = false
  /\ stdout (fst (dispatch (mkDate 2023 2 25) "birthdays" [] leap_world))
     = [Line "day is out of range for month"]
  /\ exists msg,
       AddressBook.get_upcoming_birthdays (mkDate 2023 2 25) 7
         (book leap_world) = Raise (ValueError msg)
       /\ birthdays (mkDate 2023 2 25) [] leap_world = (leap_world, Ok msg)
       /\ dispatch (mkDate 2023 2 25) "birthdays" [] leap_world
          = (mkWorld (book leap_world) (next_oid leap_world)
               (stdout leap_world ++ [Line msg]), Ok tt).
Proof.
  assert (E : Exists leap_day (Dict.values (records (book leap_world)))).
  { apply Exists_cons_tl, Exists_cons_hd.
    exists (mkBirthday "29.02.2000" (mkDate 2000 2 29)). repeat split. }
  split; [exact E|]. split; [reflexivity|]. split; [reflexivity|].
  exact (birthdays_leap_day_error (mkDate 2023 2 25) [] leap_world E eq_refl).
Defined.

(* ================================================================== *)
(** * Further properties of the code *)

(* ------------------------------------------------------------------ *)
(** ** Looking up what was added *)

Lemma get_set_other (k k' : string) (v : record) (d : dict) :
  k' <> k -> Dict.get k' (Dict.set k v d) = Dict.get k' d.
Proof.
  intros Hk. induction d as [|[k0 v0] d IH]; simpl.
  - destruct (String.eqb_spec k k'); [congruence | reflexivity].
  - destruct (String.eqb_spec k0 k); simpl.
    + subst k0. destruct (String.eqb_spec k k'); [congruence|].
      destruct (String.eqb_spec k k'); [congruence | reflexivity].
    + destruct (String.eqb_spec k0 k'); [reflexivity | exact IH].
Qed.

(** X1.  [find] returns the record that [add_record] has just stored
    under its name, [add_record] changes what [find] returns for no
    other name, and the new address book finds nothing. *)
Theorem find_add_record (b : addressbook) (r : record) (n : string) :
  AddressBook.find (value (name r)) (AddressBook.add_record r b) = Some r
  /\ (n <> value (name r) ->
      AddressBook.find n (AddressBook.add_record r b) = AddressBook.find n b)
  /\ AddressBook.find n AddressBook.init = None.
Proof.
  unfold AddressBook.find, AddressBook.add_record. simpl.
  split; [apply get_set_same|]. split; [|reflexivity].
  intros Hn. now apply get_set_other.
Qed.

Lemma find_add_record_witness :
  AddressBook.find "Mary" (AddressBook.add_record john_two
                              (AddressBook.add_record mary AddressBook.init))
  = Some mary.
Proof.
  rewrite (proj1 (proj2 (find_add_record
                           (AddressBook.add_record mary AddressBook.init)
                           john_two "Mary"))).
  - reflexivity.
  - discriminate.
Defined.

(* ------------------------------------------------------------------ *)
(** ** Adding and removing the same phone *)

Lemma list_remove_last (p : Phone) (l : list Phone) :
  Forall (fun y => phone_id y <> phone_id p) l ->
  Rec.list_remove p (l ++ [p]) = Ok l.
Proof.
  induction 1 as [|y l Hy _ IH]; simpl; unfold Rec.phone_eq.
  - now rewrite Nat.eqb_refl.
  - destruct (Nat.eqb_spec (phone_id y) (phone_id p)); [contradiction|].
    now rewrite IH.
Qed.

(** X2.  Removing a phone object right after adding it gives the record
    back as it was, when the record did not hold that object before. *)
Theorem add_then_remove_phone (p : Phone) (r : record) :
  Forall (fun y => phone_id y <> phone_id p) (phones r) ->
  Rec.remove_phone p (Rec.add_phone p r) = (r, Ok tt).
Proof.
  intros H. unfold Rec.remove_phone, Rec.add_phone. simpl.
  rewrite (list_remove_last p _ H). now destruct r.
Qed.

Lemma add_then_remove_phone_witness :
  Rec.remove_phone (mkPhone 2 "1112223333")
    (Rec.add_phone (mkPhone 2 "1112223333") john_two)
  = (john_two, Ok tt).
Proof.
  apply (add_then_remove_phone (mkPhone 2 "1112223333") john_two).
  repeat constructor; discriminate.
Defined.

(* ------------------------------------------------------------------ *)
(** ** How far away a birthday can be *)

Section Within_a_year.

Ltac by_month m :=
  assert (m = 1 \/ m = 2 \/ m = 3 \/ m = 4 \/ m = 5 \/ m = 6 \/ m = 7
          \/ m = 8 \/ m = 9 \/ m = 10 \/ m = 11 \/ m = 12) as Hcases by lia;
  repeat (destruct Hcases as [Hcases|Hcases]; [subst m|]); [..|subst m].

Lemma toordinal_strict (y m d m' d' : Z) :
  Date.valid y m d = true -> Date.valid y m' d' = true ->
  Date.ltb (mkDate y m d) (mkDate y m' d') = true ->
  toordinal (mkDate y m d) < toordinal (mkDate y m' d').
Proof.
  rewrite !valid_iff. intros (_ & Hm & Hd) (_ & Hm' & Hd').
  unfold Date.ltb. simpl. rewrite Z.ltb_irrefl, Z.eqb_refl. simpl.
  rewrite orb_true_iff, andb_true_iff, Z.ltb_lt, Z.eqb_eq, Z.ltb_lt.
  intros L.
  unfold toordinal, days_before_month, days_before_month_common,
    days_in_month in *. simpl.
  by_month m; by_month m'; try lia; destruct (is_leap y); simpl in *; lia.
Qed.

(** The same month and day one year later is 365 or 366 days later. *)
Lemma toordinal_next_year (y m d : Z) :
  Date.valid y m d = true -> Date.valid (y + 1) m d = true ->
  toordinal (mkDate (y + 1) m d) - toordinal (mkDate y m d) <= 366.
Proof.
  rewrite !valid_iff. intros (_ & Hm & Hd) (_ & _ & Hd').
  unfold toordinal. simpl. rewrite days_before_year_succ.
  unfold days_before_month, days_before_month_common, days_in_month in *.
  by_month m; destruct (is_leap y), (is_leap (y + 1)); simpl in *; lia.
Qed.

Lemma next_birthday_within_year (d today nb : date) :
  Date.ok today -> Rec.next_birthday d today = Ok nb ->
  Date.sub_days nb today <= 365.
Proof.
  intros Ht H. destruct (next_birthday_cases _ _ _ H) as (this & Hr & C).
  apply replace_year_ok in Hr. destruct Hr as [V ->].
  destruct today as [y m' d']. unfold Date.ok in Ht. simpl in *.
  unfold Date.sub_days. destruct C as [[Hl ->]|[Hl Hn]].
  - pose proof (toordinal_bounds _ _ _ V) as [_ U].
    pose proof (toordinal_bounds _ _ _ Ht) as [L _].
    destruct (is_leap y); lia.
  - apply replace_year_ok in Hn. destruct Hn as [V' ->]. simpl.
    pose proof (toordinal_strict _ _ _ _ _ V Ht Hl).
    pose proof (toordinal_next_year _ _ _ V V'). lia.
Qed.

End Within_a_year.

(** X3.  Every number that [days_to_birthday] returns is between 0 and
    365: the next birthday is at most a year away. *)
Theorem days_to_birthday_within_year (today : date) (r : record) (n : Z) :
  Date.ok today ->
  Rec.days_to_birthday today r = Ok (Some n) ->
  0 <= n <= 365.
Proof.
  intros Ht H. unfold Rec.days_to_birthday in H.
  destruct (birthday r) as [b|]; [|discriminate].
  destruct (Rec.next_birthday (bday_date b) today) as [nb|] eqn:E;
    [|discriminate].
  simpl in H. injection H as <-. split.
  - now apply (next_birthday_nonneg (bday_date b)).
  - now apply (next_birthday_within_year (bday_date b)).
Qed.

(** A birthday on 1 March seen on 2 March 2023 is 365 days away, 29
    February 2024 lying in between. *)
Lemma days_to_birthday_within_year_witness :
  Rec.days_to_birthday (mkDate 2023 3 2)
    (with_birthday "Ann" "01.03.1990" (mkDate 1990 3 1)) = Ok (Some 365)
  /\ 0 <= 365 <= 365.
Proof.
  split; [reflexivity|].
  exact (days_to_birthday_within_year (mkDate 2023 3 2)
           (with_birthday "Ann" "01.03.1990" (mkDate 1990 3 1)) 365
           eq_refl eq_refl).
Defined.

(* ------------------------------------------------------------------ *)
(** ** The window of [get_upcoming_birthdays] *)

Lemma filter_none {A} (f : A -> bool) (l : list A) :
  (forall x, In x l -> f x = false) -> filter f l = [].
Proof.
  induction l as [|x l IH]; simpl; intros H; [reflexivity|].
  rewrite (H x (or_introl eq_refl)). apply IH. intros y Hy. apply H. now right.
Qed.

Lemma in_window_empty (today : date) (days : Z) (r : record) :
  days <= 0 -> in_window today days r = false.
Proof.
  intros Hd. unfold in_window.
  destruct (Rec.days_to_birthday today r) as [[n|]|]; try reflexivity.
  destruct (Z.leb_spec 0 n), (Z.ltb_spec n days); simpl; try reflexivity.
  lia.
Qed.

Lemma in_window_year (today : date) (days : Z) (r : record) :
  Date.ok today -> 366 <= days -> returns today r ->
  in_window today days r = has_birthday r.
Proof.
  intros Ht Hd [o Ho]. unfold in_window, has_birthday. rewrite Ho.
  unfold Rec.days_to_birthday in Ho. destruct (birthday r) as [b|].
  - destruct (Rec.next_birthday (bday_date b) today) as [nb|] eqn:E;
      [|discriminate].
    simpl in Ho. injection Ho as <-.
    pose proof (next_birthday_nonneg _ _ _ Ht E).
    pose proof (next_birthday_within_year _ _ _ Ht E).
    apply andb_true_iff. rewrite Z.leb_le, Z.ltb_lt. lia.
  - now injection Ho as <-.
Qed.

(** X4.  When [days_to_birthday] returns for every record, the names
    listed for a window of [days] days are those of the records whose
    next birthday is at least 0 and less than [days] days away, in the
    order of the directory: none for a window of 0 days or less, and
    every record with a birthday for a window of 366 days or more. *)
Theorem upcoming_birthdays_window (today : date) (days : Z)
  (b : addressbook) :
  Date.ok today ->
  Forall (returns today) (Dict.values (records b)) ->
  AddressBook.get_upcoming_birthdays today days b
  = Ok (map record_name
          (filter (in_window today days) (Dict.values (records b))))
  /\ (days <= 0 -> AddressBook.get_upcoming_birthdays today days b = Ok [])
  /\ (366 <= days ->
      AddressBook.get_upcoming_birthdays today days b
      = Ok (map record_name (filter has_birthday (Dict.values (records b))))).
Proof.
  intros Ht H.
  assert (E : AddressBook.get_upcoming_birthdays today days b
              = Ok (map record_name
                      (filter (in_window today days)
                         (Dict.values (records b))))).
  { unfold AddressBook.get_upcoming_birthdays.
    now rewrite (upcoming_loop_spec today days _ H []). }
  split; [exact E|]. rewrite E. split; intros Hd.
  - rewrite filter_none; [reflexivity|].
    intros r _. now apply in_window_empty.
  - do 2 f_equal. apply filter_ext_in. intros r Hr.
    apply in_window_year; auto.
    revert r Hr. now apply Forall_forall.
Qed.

(** On 1 March 2024, of Ann, Eve, Bob and John (who has no birthday):
    nobody in a window of 0 days, Ann, Eve and Bob in one of 366. *)
Lemma upcoming_birthdays_window_witness :
  AddressBook.get_upcoming_birthdays (mkDate 2024 3 1) 0 three_book = Ok []
  /\ AddressBook.get_upcoming_birthdays (mkDate 2024 3 1) 366 three_book
     = Ok ["Ann"; "Eve"; "Bob"].
Proof.
  assert (R : Forall (returns (mkDate 2024 3 1))
                (Dict.values (records three_book))).
  { repeat constructor; eexists; reflexivity. }
  destruct (upcoming_birthdays_window (mkDate 2024 3 1) 0 three_book
              eq_refl R) as (_ & H0 & _).
  destruct (upcoming_birthdays_window (mkDate 2024 3 1) 366 three_book
              eq_refl R) as (_ & _ & H366).
  split; [apply H0; lia | rewrite H366 by lia; reflexivity].
Defined.

(* ------------------------------------------------------------------ *)
(** ** Rules for commands *)

Lemma hoare_ret {A} (P : world -> Prop) (a : A) (Q : A -> world -> Prop)
  (E : exn -> world -> Prop) :
  (forall w, P w -> Q a w) -> hoare P (ret a) Q E.
Proof.
  intros H w Hw. simpl. now apply H.
Qed.

Lemma hoare_raise {A} (P : world -> Prop) (e : exn)
  (Q : A -> world -> Prop) (E : exn -> world -> Prop) :
  (forall w, P w -> E e w) -> hoare P (raise e) Q E.
Proof.
  intros H w Hw. simpl. now apply H.
Qed.

Lemma hoare_bind {A B} (P : world -> Prop) (m : M A)
  (Q : A -> world -> Prop) (k : A -> M B) (R : B -> world -> Prop)
  (E : exn -> world -> Prop) :
  hoare P m Q E -> (forall a, hoare (Q a) (k a) R E) ->
  hoare P (mbind m k) R E.
Proof.
  intros Hm Hk w Hw. unfold mbind. specialize (Hm w Hw).
  destruct (m w) as [w' [a|e]]; [now apply Hk | exact Hm].
Qed.

Lemma hoare_weaken {A} (P P' : world -> Prop) (m : M A)
  (Q Q' : A -> world -> Prop) (E E' : exn -> world -> Prop) :
  hoare P' m Q' E' ->
  (forall w, P w -> P' w) ->
  (forall a w, Q' a w -> Q a w) ->
  (forall e w, E' e w -> E e w) ->
  hoare P m Q E.
Proof.
  intros H HP HQ HE w Hw. specialize (H w (HP w Hw)).
  destruct (m w) as [w' [a|e]]; auto.
Qed.

(** [input_error] turns a [ValueError] into a result. *)
Lemma hoare_input_error (P : world -> Prop) (m : M string)
  (Q : world -> Prop) (E : exn -> world -> Prop) :
  hoare P m (fun _ w => Q w) (fun e w => Q w /\ is_ValueError e) ->
  hoare P (input_error m) (fun _ w => Q w) E.
Proof.
  intros H w Hw. unfold input_error. specialize (H w Hw).
  destruct (m w) as [w' [a|e]]; [exact H|].
  destruct H as [HQ [msg ->]]. exact HQ.
Qed.

(** [try ... except ValueError] hands a [ValueError] to the handler. *)
Lemma hoare_try {A} (P P' : world -> Prop) (m h : M A)
  (Q : A -> world -> Prop) (E : exn -> world -> Prop) :
  hoare P m Q (fun e w => P' w /\ is_ValueError e) ->
  hoare P' h Q E ->
  hoare P (try_ValueError m h) Q E.
Proof.
  intros Hm Hh w Hw. unfold try_ValueError. specialize (Hm w Hw).
  destruct (m w) as [w' [a|e]]; [exact Hm|].
  destruct Hm as [HP [msg ->]]. now apply Hh.
Qed.

(* ------------------------------------------------------------------ *)
(** ** What every command keeps *)

Lemma phone_ok_mono (n n' : nat) (p : Phone) :
  (n <= n')%nat -> phone_ok n p -> phone_ok n' p.
Proof.
  unfold phone_ok. intros Hn [Hv Hp]. split; [exact Hv | lia].
Qed.

Lemma record_ok_mono (n n' : nat) (r : record) :
  (n <= n')%nat -> record_ok n r -> record_ok n' r.
Proof.
  unfold record_ok. intros Hn (Ha & Hp & Hb). repeat split; auto.
  eapply Forall_impl; [|exact Hp]. intros p. now apply phone_ok_mono.
Qed.

Lemma book_ok_mono (n n' : nat) (d : dict) :
  (n <= n')%nat -> book_ok n d -> book_ok n' d.
Proof.
  unfold book_ok. intros Hn [Hw Hd]. split; [exact Hw|].
  eapply Forall_impl; [|exact Hd]. intros kv [Hk Hr].
  split; [exact Hk | now apply (record_ok_mono n)].
Qed.

Lemma book_ok_set (n : nat) (r : record) (d : dict) :
  book_ok n d -> record_ok n r ->
  book_ok n (Dict.set (value (name r)) r d).
Proof.
  unfold book_ok. intros [Hw Hd] Hr. split; [now apply set_wf|].
  apply Forall_forall. intros kv H. apply in_set in H.
  destruct H as [->|H]; [now split|].
  revert kv H. now apply Forall_forall.
Qed.

Lemma keys_update (k : string) (f : record -> record) (d : dict) :
  Dict.keys (Dict.update k f d) = Dict.keys d.
Proof.
  induction d as [|[k' v] d IH]; simpl; [reflexivity|].
  destruct (String.eqb k' k); simpl; [reflexivity | now rewrite IH].
Qed.

Lemma in_update (k : string) (f : record -> record) (d : dict)
  (kv : string * record) :
  In kv (Dict.update k f d) ->
  In kv d \/ exists v, In (fst kv, v) d /\ snd kv = f v.
Proof.
  induction d as [|[k' v] d IH]; simpl; [tauto|].
  destruct (String.eqb k' k); simpl.
  - intros [<-|H]; [|tauto]. right. exists v. simpl. tauto.
  - intros [<-|H]; [tauto|]. destruct (IH H) as [H'|(v0 & H1 & H2)];
      [tauto|]. right. exists v0. tauto.
Qed.

Lemma book_ok_update (n : nat) (k : string) (f : record -> record)
  (d : dict) :
  book_ok n d ->
  (forall r, record_ok n r -> name (f r) = name r /\ record_ok n (f r)) ->
  book_ok n (Dict.update k f d).
Proof.
  unfold book_ok, Dict.wf. intros [Hw Hd] Hf.
  rewrite keys_update. split; [exact Hw|].
  rewrite Forall_forall in *. intros kv H. apply in_update in H.
  destruct H as [H|(v & H1 & H2)]; [now apply Hd|].
  destruct (Hd _ H1) as [Hk Hr]. simpl in Hk, Hr.
  destruct (Hf v Hr) as [Hn Hr']. rewrite H2, Hn. now split.
Qed.

Lemma add_phone_ok (n : nat) (p : Phone) (r : record) :
  phone_ok n p -> record_ok n r ->
  name (Rec.add_phone p r) = name r /\ record_ok n (Rec.add_phone p r).
Proof.
  unfold record_ok. intros Hp (Ha & Hl & Hb). simpl. repeat split; auto.
  apply Forall_app. split; [exact Hl | now constructor].
Qed.

Lemma add_birthday_ok (n : nat) (b : Birthday) (r : record) :
  birthday_ok b -> record_ok n r ->
  name (Rec.add_birthday b r) = name r /\ record_ok n (Rec.add_birthday b r).
Proof.
  unfold record_ok. intros Hb (Ha & Hl & _). simpl. repeat split; auto.
  intros b' H. now injection H as <-.
Qed.

Lemma list_remove_keeps (P : Phone -> Prop) (p : Phone) (l l' : list Phone) :
  Rec.list_remove p l = Ok l' -> Forall P l -> Forall P l'.
Proof.
  intros H Hl. apply list_remove_ok in H.
  destruct H as (l1 & x & l2 & -> & _ & _ & ->).
  apply Forall_app in Hl. destruct Hl as [H1 H2]. inversion H2; subst.
  apply Forall_app. now split.
Qed.

Lemma remove_phone_ok (n : nat) (p : Phone) (r : record) :
  record_ok n r ->
  name (fst (Rec.remove_phone p r)) = name r
  /\ record_ok n (fst (Rec.remove_phone p r)).
Proof.
  unfold Rec.remove_phone. intros Hr.
  destruct (Rec.list_remove p (phones r)) as [l|] eqn:E; simpl;
    [|now split].
  split; [reflexivity|]. destruct Hr as (Ha & Hl & Hb).
  repeat split; auto. simpl. now apply (list_remove_keeps _ p (phones r)).
Qed.

Lemma Rec_init_ok (n : string) (r : record) :
  Rec.init n = Ok r -> r = mkRecord (mkName n) [] None /\ record_ok 0 r.
Proof.
  unfold Rec.init, Name_init. destruct (Str.isalpha n) eqn:E; [|discriminate].
  simpl. intros H. injection H as <-. split; [reflexivity|].
  repeat split; auto. intros b H. discriminate H.
Qed.

Lemma Rec_init_raises (n : string) (e : exn) :
  Rec.init n = Raise e -> is_ValueError e.
Proof.
  unfold Rec.init, Name_init. destruct (Str.isalpha n); [discriminate|].
  simpl. intros H. injection H as <-. eexists. reflexivity.
Qed.

Section Commands.

Variable E : exn -> world -> Prop.

Lemma hoare_find (n : string) :
  hoare Inv (find n) (fun _ w => Inv w) E.
Proof.
  intros w Hw. exact Hw.
Qed.

Lemma hoare_print (s : string) :
  hoare Inv (print s) (fun _ w => Inv w) E.
Proof.
  intros w Hw. exact Hw.
Qed.

Lemma hoare_add_record (r : record) :
  hoare (fun w => Inv w /\ record_ok 0 r)
    (modify_book (AddressBook.add_record r)) (fun _ w => Inv w) E.
Proof.
  intros w [Hw Hr]. unfold Inv in *. simpl. apply book_ok_set; [exact Hw|].
  apply (record_ok_mono 0); [lia | exact Hr].
Qed.

Lemma hoare_add_phone (n : string) (p : Phone) :
  hoare (fun w => Inv w /\ phone_ok (next_oid w) p)
    (on_record n (Rec.add_phone p)) (fun _ w => Inv w) E.
Proof.
  intros w [Hw Hp]. unfold Inv in *. simpl.
  apply book_ok_update; [exact Hw|]. intros r. now apply add_phone_ok.
Qed.

Lemma hoare_add_birthday (n : string) (b : Birthday) :
  hoare (fun w => Inv w /\ birthday_ok b)
    (on_record n (Rec.add_birthday b)) (fun _ w => Inv w) E.
Proof.
  intros w [Hw Hb]. unfold Inv in *. simpl.
  apply book_ok_update; [exact Hw|]. intros r. now apply add_birthday_ok.
Qed.

End Commands.

Lemma hoare_init (n : string) :
  hoare Inv (lift (Rec.init n)) (fun r w => Inv w /\ record_ok 0 r)
    (fun e w => Inv w /\ is_ValueError e).
Proof.
  intros w Hw. unfold lift. destruct (Rec.init n) as [r|e] eqn:H.
  - split; [exact Hw|]. now apply Rec_init_ok in H.
  - split; [exact Hw|]. now apply Rec_init_raises in H.
Qed.

Lemma hoare_Phone_new (v : string) :
  hoare Inv (Phone_new v) (fun p w => Inv w /\ phone_ok (next_oid w) p)
    (fun e w => Inv w /\ is_ValueError e).
Proof.
  intros w Hw. unfold Phone_new. rewrite Phone_init_cases.
  assert (H : Inv (mkWorld (book w) (S (next_oid w)) (stdout w))).
  { unfold Inv in *. simpl. apply (book_ok_mono (next_oid w)); [lia|exact Hw]. }
  destruct (Phone_valid v) eqn:Ev.
  - split; [exact H|]. split; simpl; [exact Ev | lia].
  - split; [exact H|]. eexists. reflexivity.
Qed.

Lemma hoare_Birthday (v : string) :
  hoare Inv (lift (Birthday_init v)) (fun b w => Inv w /\ birthday_ok b)
    (fun e w => Inv w /\ is_ValueError e).
Proof.
  intros w Hw. unfold lift. destruct (Birthday_init_total v) as [[b Hb]|Hb];
    rewrite Hb.
  - split; [exact Hw|]. apply Birthday_init_ok_inv in Hb.
    destruct Hb as [Hd Hv]. unfold birthday_ok. simpl. now rewrite Hv.
  - split; [exact Hw|]. eexists. reflexivity.
Qed.

Lemma list_remove_raises (p : Phone) (l : list Phone) (e : exn) :
  Rec.list_remove p l = Raise e ->
  e = ValueError "list.remove(x): x not in list".
Proof.
  induction l as [|y l IH]; simpl.
  - intros H. now injection H as <-.
  - destruct (Rec.phone_eq y p); [discriminate|].
    destruct (Rec.list_remove p l); [discriminate|]. exact IH.
Qed.

Lemma remove_phone_raises (p : Phone) (r : record) (e : exn) :
  snd (Rec.remove_phone p r) = Raise e ->
  e = ValueError "list.remove(x): x not in list".
Proof.
  unfold Rec.remove_phone.
  destruct (Rec.list_remove p (phones r)) as [l|e0] eqn:El; simpl;
    [discriminate|].
  intros H. injection H as <-. now apply list_remove_raises in El.
Qed.

Lemma hoare_remove_phone (n : string) (p : Phone) :
  keeps (on_record_try n (Rec.remove_phone p)).
Proof.
  intros w Hw. unfold on_record_try.
  destruct (AddressBook.find n (book w)) as [r|]; [|exact Hw].
  assert (H : Inv (mkWorld
                     (mkBook (Dict.update n
                                (fun r => fst (Rec.remove_phone p r))
                                (records (book w))))
                     (next_oid w) (stdout w))).
  { unfold Inv in *. simpl. apply book_ok_update; [exact Hw|].
    intros r0. apply remove_phone_ok. }
  destruct (snd (Rec.remove_phone p r)) as [u|e] eqn:El; [exact H|].
  split; [exact H|]. apply remove_phone_raises in El. subst e.
  eexists. reflexivity.
Qed.

(** The four handlers under [input_error] return a text and raise
    nothing, whatever their arguments. *)
Lemma add_contact_never_raises (args : list string) :
  never_raises (add_contact args).
Proof.
  unfold never_raises, add_contact. apply hoare_input_error.
  destruct args as [|n [|ph rest]];
    try (apply hoare_raise; intros w Hw; split; [exact Hw|];
         eexists; reflexivity).
  apply (hoare_bind _ _ (fun _ w => Inv w)); [apply hoare_find|].
  intros rec.
  apply (hoare_bind _ _ (fun _ w => Inv w)).
  - destruct rec as [r|].
    + now apply hoare_ret.
    + apply (hoare_bind _ _ (fun r w => Inv w /\ record_ok 0 r));
        [apply hoare_init|].
      intros r. apply (hoare_bind _ _ (fun _ w => Inv w));
        [apply hoare_add_record|].
      intros _. now apply hoare_ret.
  - intros message. apply (hoare_bind _ _ (fun _ w => Inv w)).
    + destruct (Str.nonempty ph); [|now apply hoare_ret].
      apply (hoare_bind _ _ (fun p w => Inv w /\ phone_ok (next_oid w) p));
        [apply hoare_Phone_new|].
      intros p. apply hoare_add_phone.
    + intros _. now apply hoare_ret.
Qed.

Lemma add_birthday_never_raises (args : list string) :
  never_raises (add_birthday args).
Proof.
  unfold never_raises, add_birthday. apply hoare_input_error.
  destruct args as [|n [|bd rest]];
    try (apply hoare_raise; intros w Hw; split; [exact Hw|];
         eexists; reflexivity).
  apply (hoare_bind _ _ (fun _ w => Inv w)); [apply hoare_find|].
  intros [r|].
  - apply (hoare_bind _ _ (fun b w => Inv w /\ birthday_ok b));
      [apply hoare_Birthday|].
    intros b. apply (hoare_bind _ _ (fun _ w => Inv w));
      [apply hoare_add_birthday|].
    intros _. now apply hoare_ret.
  - apply hoare_raise. intros w Hw. split; [exact Hw|]. eexists. reflexivity.
Qed.

Lemma show_birthday_never_raises (args : list string) :
  never_raises (show_birthday args).
Proof.
  unfold never_raises, show_birthday. apply hoare_input_error.
  destruct args as [|n rest];
    try (apply hoare_raise; intros w Hw; split; [exact Hw|];
         eexists; reflexivity).
  apply (hoare_bind _ _ (fun _ w => Inv w)); [apply hoare_find|].
  intros [[nm ps [b|]]|];
    try (apply hoare_raise; intros w Hw; split; [exact Hw|];
         eexists; reflexivity).
  now apply hoare_ret.
Qed.

Lemma upcoming_loop_raises (today : date) (days : Z) (rs : list record)
  (acc : list string) (e : exn) :
  AddressBook.upcoming_loop today days rs acc = Raise e -> is_ValueError e.
Proof.
  revert acc. induction rs as [|r rs IH]; simpl; intros acc; [discriminate|].
  destruct (birthday r) as [b|]; [|apply IH].
  destruct (Rec.next_birthday (bday_date b) today) as [nb|e0] eqn:En; simpl.
  - destruct ((0 <=? Date.sub_days nb today)
              && (Date.sub_days nb today <? days)); apply IH.
  - intros H. injection H as <-. now apply next_birthday_raises in En.
Qed.

Lemma birthdays_never_raises (today : date) (args : list string) :
  never_raises (birthdays today args).
Proof.
  unfold never_raises, birthdays. apply hoare_input_error.
  apply (hoare_bind _ _ (fun _ w => Inv w)).
  - intros w Hw. unfold AddressBook.get_upcoming_birthdays.
    destruct (AddressBook.upcoming_loop today 7
                (Dict.values (records (book w))) []) as [l|e] eqn:El.
    + exact Hw.
    + split; [exact Hw|]. now apply upcoming_loop_raises in El.
  - intros [|n l]; now apply hoare_ret.
Qed.

(* ------------------------------------------------------------------ *)
(** ** What the commands raise *)

Ltac unfold_commands :=
  unfold add_contact, add_birthday, show_birthday, birthdays,
    change_branch, phone_branch, input_error, try_ValueError, mbind, find,
    lift, modify_book, ret, raise, print, Phone_new, on_record,
    on_record_try.

Lemma add_contact_returns (args : list string) (w : world) :
  exists w' s, add_contact args w = (w', Ok s).
Proof.
  unfold_commands. unfold Rec.init, Name_init.
  destruct args as [|n [|ph rest]]; try (do 2 eexists; reflexivity).
  destruct (AddressBook.find n (book w)) as [r|];
    [|destruct (Str.isalpha n); simpl; [|do 2 eexists; reflexivity]];
    (destruct (Str.nonempty ph); simpl; [|do 2 eexists; reflexivity]);
    rewrite Phone_init_cases; destruct (Phone_valid ph);
    do 2 eexists; reflexivity.
Qed.

Lemma add_birthday_returns (args : list string) (w : world) :
  exists w' s, add_birthday args w = (w', Ok s).
Proof.
  unfold_commands.
  destruct args as [|n [|bd rest]]; try (do 2 eexists; reflexivity).
  destruct (AddressBook.find n (book w)) as [r|];
    [|do 2 eexists; reflexivity].
  destruct (Birthday_init_total bd) as [[b Hb]|Hb]; rewrite Hb;
    do 2 eexists; reflexivity.
Qed.

Lemma show_birthday_returns (args : list string) (w : world) :
  exists w' s, show_birthday args w = (w', Ok s).
Proof.
  unfold_commands.
  destruct args as [|n rest]; try (do 2 eexists; reflexivity).
  destruct (AddressBook.find n (book w)) as [[nm ps [b|]]|];
    do 2 eexists; reflexivity.
Qed.

Lemma birthdays_returns (today : date) (args : list string) (w : world) :
  exists w' s, birthdays today args w = (w', Ok s).
Proof.
  unfold_commands. unfold AddressBook.get_upcoming_birthdays.
  destruct (AddressBook.upcoming_loop today 7
              (Dict.values (records (book w))) []) as [[|n l]|e] eqn:El;
    try (do 2 eexists; reflexivity).
  apply upcoming_loop_raises in El. destruct El as [msg ->].
  do 2 eexists. reflexivity.
Qed.

(** X5.  The four handlers under [input_error], [add_contact],
    [add_birthday], [show_birthday] and [birthdays], return a text for
    all arguments and in every state: they raise nothing. *)
Theorem wrapped_handlers_return (today : date) (args : list string)
  (w : world) :
  (exists w' s, add_contact args w = (w', Ok s))
  /\ (exists w' s, add_birthday args w = (w', Ok s))
  /\ (exists w' s, show_birthday args w = (w', Ok s))
  /\ (exists w' s, birthdays today args w = (w', Ok s)).
Proof.
  split; [apply add_contact_returns|].
  split; [apply add_birthday_returns|].
  split; [apply show_birthday_returns | apply birthdays_returns].
Qed.

Lemma change_branch_result (args : list string) (w : world) :
  snd (change_branch args w)
  = if (List.length args <? 3)%nat
    then Raise (unpack_error 3 (List.length args)) else Ok tt.
Proof.
  unfold_commands.
  destruct args as [|n [|old [|new rest]]]; try reflexivity.
  change ((List.length (n :: old :: new :: rest) <? 3)%nat) with false.
  cbv iota.
  destruct (AddressBook.find n (book w)) as [r|] eqn:Ef; [|reflexivity].
  rewrite Phone_init_cases. destruct (Phone_valid old); [|reflexivity].
  cbn [book next_oid stdout]. rewrite Ef.
  destruct (snd (Rec.remove_phone (mkPhone (next_oid w) old) r)) as [u|e]
    eqn:Er.
  - rewrite Phone_init_cases. destruct (Phone_valid new); reflexivity.
  - apply remove_phone_raises in Er. subst e. reflexivity.
Qed.

Lemma phone_branch_result (args : list string) (w : world) :
  snd (phone_branch args w)
  = if (List.length args <? 1)%nat then Raise (unpack_error 1 0) else Ok tt.
Proof.
  unfold_commands. destruct args as [|n rest]; [reflexivity|].
  destruct (AddressBook.find n (book w)); reflexivity.
Qed.

Lemma print_all_result (rs : list record) (w : world) :
  snd (print_all rs w) = Ok tt.
Proof.
  revert w. induction rs as [|r rs IH]; intros w; [reflexivity|].
  simpl. unfold mbind, print. apply IH.
Qed.

Lemma print_after_returns (m : M string) (w : world) :
  (exists w' s, m w = (w', Ok s)) ->
  snd (mbind m (fun s => print s) w) = Ok tt.
Proof.
  intros (w' & s & H). unfold mbind. now rewrite H.
Qed.

(** A dispatched command raises exactly in the cases of [fatal]. *)
Lemma dispatch_result (today : date) (command : string)
  (args : list string) (w : world) :
  snd (dispatch today command args w)
  = match fatal command args with Some e => Raise e | None => Ok tt end.
Proof.
  unfold dispatch, fatal.
  destruct (String.eqb_spec command "hello"); [subst; reflexivity|].
  destruct (String.eqb_spec command "add");
    [subst; apply print_after_returns, add_contact_returns|].
  destruct (String.eqb_spec command "change").
  { subst. rewrite change_branch_result. simpl.
    now destruct (List.length args <? 3)%nat. }
  destruct (String.eqb_spec command "phone").
  { subst. rewrite phone_branch_result. simpl.
    now destruct (List.length args <? 1)%nat. }
  simpl.
  destruct (String.eqb_spec command "all"); [apply print_all_result|].
  destruct (String.eqb_spec command "add-birthday");
    [apply print_after_returns, add_birthday_returns|].
  destruct (String.eqb_spec command "show-birthday");
    [apply print_after_returns, show_birthday_returns|].
  destruct (String.eqb_spec command "birthdays");
    [apply print_after_returns, birthdays_returns|].
  reflexivity.
Qed.

(** X6.  How the loop ends, and the lines it leaves unread, depend on
    the lines alone, not on the state or the date: it ends at the first
    line that is blank (uncaught [ValueError]), whose command is [close]
    or [exit] (the break), or that is [change] with fewer than three or
    [phone] with no argument (uncaught [ValueError]); without such a
    line it ends with the [EOFError] of [input]. *)
Theorem loop_verdict (today : date) (lines : list string) (w : world) :
  (how (loop today lines w), unread (loop today lines w)) = verdict lines
  /\ (how (main today lines), unread (main today lines)) = verdict lines.
Proof.
  assert (H : forall w, (how (loop today lines w),
                         unread (loop today lines w)) = verdict lines).
  { induction lines as [|l rest IH]; intros w0; [reflexivity|].
    simpl. destruct (Str.split l) as [|command args]; [reflexivity|].
    destruct (String.eqb command "close" || String.eqb command "exit");
      [reflexivity|].
    pose proof (dispatch_result today command args (prompt w0)) as D.
    destruct (dispatch today command args (prompt w0)) as [w' [u|e]];
      simpl in D; destruct (fatal command args); try discriminate.
    - apply IH.
    - now injection D as <-. }
  split; [apply H|]. unfold main. apply H.
Qed.

(* ------------------------------------------------------------------ *)
(** ** The directory stays valid through a run *)

Lemma never_raises_keeps {A} (m : M A) : never_raises m -> keeps m.
Proof.
  intros H. apply (hoare_weaken _ _ _ _ _ _ _ H); auto. intros e w [].
Qed.

Lemma keeps_then_print (m : M string) :
  never_raises m -> keeps (mbind m (fun s => print s)).
Proof.
  intros H. apply (hoare_bind _ _ (fun _ w => Inv w)).
  - now apply never_raises_keeps.
  - intros s. apply hoare_print.
Qed.

Lemma keeps_unpack_error {A} (want got : nat) :
  keeps (raise (A := A) (unpack_error want got)).
Proof.
  apply hoare_raise. intros w Hw. split; [exact Hw|]. eexists. reflexivity.
Qed.

Lemma keeps_change_branch (args : list string) : keeps (change_branch args).
Proof.
  unfold change_branch.
  destruct args as [|n [|old [|new rest]]]; try apply keeps_unpack_error.
  apply (hoare_bind _ _ (fun _ w => Inv w)); [apply hoare_find|].
  intros [r|]; [|apply hoare_print].
  apply (hoare_try _ Inv); [|apply hoare_print].
  apply (hoare_bind _ _ (fun _ w => Inv w)).
  { apply (hoare_weaken _ _ _ _ _ _ _ (hoare_Phone_new old)); auto.
    intros p w [Hw _]. exact Hw. }
  intros p. apply (hoare_bind _ _ (fun _ w => Inv w));
    [apply hoare_remove_phone|].
  intros _.
  apply (hoare_bind _ _ (fun q w => Inv w /\ phone_ok (next_oid w) q));
    [apply hoare_Phone_new|].
  intros q. apply (hoare_bind _ _ (fun _ w => Inv w));
    [apply hoare_add_phone|].
  intros _. apply hoare_print.
Qed.

Lemma keeps_phone_branch (args : list string) : keeps (phone_branch args).
Proof.
  unfold phone_branch. destruct args as [|n rest];
    [apply keeps_unpack_error|].
  apply (hoare_bind _ _ (fun _ w => Inv w)); [apply hoare_find|].
  intros [r|]; apply hoare_print.
Qed.

Lemma keeps_print_all (rs : list record) : keeps (print_all rs).
Proof.
  induction rs as [|r rs IH]; simpl; [now apply hoare_ret|].
  apply (hoare_bind _ _ (fun _ w => Inv w)); [apply hoare_print|].
  intros _. exact IH.
Qed.

Lemma keeps_dispatch (today : date) (command : string) (args : list string) :
  keeps (dispatch today command args).
Proof.
  unfold dispatch.
  destruct (String.eqb command "hello"); [apply hoare_print|].
  destruct (String.eqb command "add");
    [apply keeps_then_print, add_contact_never_raises|].
  destruct (String.eqb command "change"); [apply keeps_change_branch|].
  destruct (String.eqb command "phone"); [apply keeps_phone_branch|].
  destruct (String.eqb command "all").
  { intros w Hw. now apply (keeps_print_all _ w). }
  destruct (String.eqb command "add-birthday");
    [apply keeps_then_print, add_birthday_never_raises|].
  destruct (String.eqb command "show-birthday");
    [apply keeps_then_print, show_birthday_never_raises|].
  destruct (String.eqb command "birthdays");
    [apply keeps_then_print, birthdays_never_raises|].
  apply hoare_print.
Qed.

Lemma loop_keeps (today : date) (lines : list string) (w : world) :
  Inv w -> Inv (final (loop today lines w)).
Proof.
  revert w. induction lines as [|l rest IH]; intros w Hw; [exact Hw|].
  simpl. destruct (Str.split l) as [|command args]; [exact Hw|].
  destruct (String.eqb command "close" || String.eqb command "exit");
    [exact Hw|].
  assert (Hp : Inv (prompt w)) by exact Hw.
  pose proof (keeps_dispatch today command args (prompt w) Hp) as D.
  destruct (dispatch today command args (prompt w)) as [w' [u|e]].
  - now apply IH.
  - now destruct D.
Qed.

Lemma get_in (k : string) (r : record) (d : dict) :
  Dict.get k d = Some r -> In (k, r) d.
Proof.
  induction d as [|[k' v] d IH]; simpl; [discriminate|].
  destruct (String.eqb_spec k' k).
  - intros H. injection H as <-. subst. now left.
  - intros H. right. now apply IH.
Qed.

(** X7.  At the end of every run of [main], and so at each of its
    prompts, the keys of the directory are unique and every record found
    under a name has that name; the name is alphabetic, every phone of
    the record is ten digits, and its birthday, if any, holds the date
    that its text parses to. *)
Theorem main_keeps_directory_valid (today : date) (lines : list string) :
  let w := final (main today lines) in
  Dict.wf (records (book w))
  /\ forall (n : string) (r : record),
       AddressBook.find n (book w) = Some r ->
       value (name r) = n
       /\ Str.isalpha n = true
       /\ Forall (fun p => Phone_valid (value p) = true) (phones r)
       /\ (forall b, birthday r = Some b ->
           Strptime.strptime_dmY (value b) = Ok (bday_date b)).
Proof.
  assert (H : Inv (final (main today lines))).
  { unfold main. apply loop_keeps. split; [constructor | constructor]. }
  destruct H as [Hwf Hall]. split; [exact Hwf|].
  intros n r Hf. apply get_in in Hf.
  rewrite Forall_forall in Hall. destruct (Hall _ Hf) as [Hk (Ha & Hp & Hb)].
  simpl in Hk. subst n. repeat split; auto.
  eapply Forall_impl; [|exact Hp]. now intros p [Hv _].
Qed.

(* ------------------------------------------------------------------ *)
(** ** What [change] does in a run *)

Lemma main_Inv (today : date) (lines : list string) :
  Inv (final (main today lines)).
Proof.
  unfold main. apply loop_keeps. split; constructor.
Qed.

Lemma update_same (k : string) (f : record -> record) (r : record)
  (d : dict) :
  Dict.get k d = Some r -> f r = r -> Dict.update k f d = d.
Proof.
  intros Hg Hf. induction d as [|[k' v] d IH]; simpl in *; [reflexivity|].
  destruct (String.eqb k' k).
  - injection Hg as ->. now rewrite Hf.
  - now rewrite IH.
Qed.

Lemma found_phones_older (w : world) (n : string) (r : record) :
  Inv w -> AddressBook.find n (book w) = Some r ->
  Forall (fun y => phone_id y <> next_oid w) (phones r).
Proof.
  intros [_ Hall] Hf. apply get_in in Hf.
  rewrite Forall_forall in Hall. destruct (Hall _ Hf) as [_ (_ & Hp & _)].
  eapply Forall_impl; [|exact Hp]. intros p [_ Hlt]. simpl in *. lia.
Qed.

Lemma change_branch_in_run (w : world) (n old new : string)
  (rest : list string) :
  Inv w ->
  change_branch (n :: old :: new :: rest) w
  = match AddressBook.find n (book w) with
    | None =>
        (mkWorld (book w) (next_oid w)
           (stdout w ++ [Line "Contact not found."]), Ok tt)
    | Some _ =>
        (mkWorld (book w) (S (next_oid w))
           (stdout w ++ [Line "Phone not found."]), Ok tt)
    end.
Proof.
  intros Hw. unfold_commands.
  destruct (AddressBook.find n (book w)) as [r|] eqn:Ef; [|reflexivity].
  rewrite Phone_init_cases. destruct (Phone_valid old); [|reflexivity].
  cbn [book next_oid stdout]. rewrite Ef.
  pose proof (remove_phone_not_held (mkPhone (next_oid w) old) r
                (found_phones_older w n r Hw Ef)) as Hrm.
  rewrite (update_same n
             (fun r0 => fst (Rec.remove_phone (mkPhone (next_oid w) old) r0))
             r _ Ef) by now rewrite Hrm.
  rewrite Hrm. cbn [fst snd]. now destruct (book w).
Qed.

(** X8.  In a state of a run, [change] with three arguments never
    replaces a phone: for an unknown contact it prints that the contact
    was not found, and for a known one it prints that the phone was not
    found, whatever the two phone texts are; the address book stays as
    it was. *)
Theorem change_reports_not_found (w : world) (n old new : string)
  (rest : list string) :
  Inv w ->
  change_branch (n :: old :: new :: rest) w
  = match AddressBook.find n (book w) with
    | None =>
        (mkWorld (book w) (next_oid w)
           (stdout w ++ [Line "Contact not found."]), Ok tt)
    | Some _ =>
        (mkWorld (book w) (S (next_oid w))
           (stdout w ++ [Line "Phone not found."]), Ok tt)
    end.
Proof.
  apply change_branch_in_run.
Qed.

(** After [add John 1234567890], the change of that very phone. *)
Lemma change_reports_not_found_witness :
  let w := final (main (mkDate 2024 3 1) ["add John 1234567890"]) in
  Inv w
  /\ change_branch ["John"; "1234567890"; "1112223333"] w
     = (mkWorld (book w) (S (next_oid w))
          (stdout w ++ [Line "Phone not found."]), Ok tt).
Proof.
  split; [apply main_Inv|].
  exact (change_reports_not_found
           (final (main (mkDate 2024 3 1) ["add John 1234567890"]))
           "John" "1234567890" "1112223333" []
           (main_Inv (mkDate 2024 3 1) ["add John 1234567890"])).
Defined.

(* ------------------------------------------------------------------ *)
(** ** Which commands change the address book *)

Lemma print_all_book (rs : list record) (w : world) :
  book (fst (print_all rs w)) = book w.
Proof.
  revert w. induction rs as [|r rs IH]; intros w; [reflexivity|].
  simpl. unfold mbind, print. now rewrite IH.
Qed.

Lemma change_branch_book (args : list string) (w : world) :
  Inv w -> book (fst (change_branch args w)) = book w.
Proof.
  intros Hw. destruct args as [|n [|old [|new rest]]]; try reflexivity.
  rewrite (change_branch_in_run w n old new rest Hw).
  now destruct (AddressBook.find n (book w)).
Qed.

Lemma show_birthday_book (args : list string) (w : world) :
  book (fst (mbind (show_birthday args) (fun s => print s) w)) = book w.
Proof.
  unfold_commands. destruct args as [|n rest]; [reflexivity|].
  destruct (AddressBook.find n (book w)) as [[nm ps [b|]]|]; reflexivity.
Qed.

Lemma birthdays_book (today : date) (args : list string) (w : world) :
  book (fst (mbind (birthdays today args) (fun s => print s) w)) = book w.
Proof.
  unfold_commands.
  destruct (AddressBook.get_upcoming_birthdays today 7 (book w))
    as [[|n l]|[]]; reflexivity.
Qed.

Lemma phone_branch_book (args : list string) (w : world) :
  book (fst (phone_branch args w)) = book w.
Proof.
  unfold_commands. destruct args as [|n rest]; [reflexivity|].
  destruct (AddressBook.find n (book w)); reflexivity.
Qed.

Lemma dispatch_book (today : date) (command : string) (args : list string)
  (w : world) :
  Inv w -> command <> "add" -> command <> "add-birthday" ->
  book (fst (dispatch today command args w)) = book w.
Proof.
  intros Hw Hadd Hbd. unfold dispatch.
  destruct (String.eqb_spec command "hello"); [reflexivity|].
  destruct (String.eqb_spec command "add"); [contradiction|].
  destruct (String.eqb_spec command "change");
    [now apply change_branch_book|].
  destruct (String.eqb_spec command "phone"); [apply phone_branch_book|].
  destruct (String.eqb_spec command "all"); [apply print_all_book|].
  destruct (String.eqb_spec command "add-birthday"); [contradiction|].
  destruct (String.eqb_spec command "show-birthday");
    [apply show_birthday_book|].
  destruct (String.eqb_spec command "birthdays"); [apply birthdays_book|].
  reflexivity.
Qed.

Lemma loop_last_line_book (today : date) (lines : list string)
  (cl command : string) (args : list string) (w : world) :
  Inv w -> Str.split cl = command :: args ->
  command <> "add" -> command <> "add-birthday" ->
  book (final (loop today (lines ++ [cl]) w))
  = book (final (loop today lines w)).
Proof.
  intros Hw Hs Hadd Hbd. revert w Hw.
  induction lines as [|l rest IH]; intros w Hw; simpl.
  - rewrite Hs.
    destruct (String.eqb command "close" || String.eqb command "exit");
      [reflexivity|].
    pose proof (dispatch_book today command args (prompt w) Hw Hadd Hbd) as D.
    destruct (dispatch today command args (prompt w)) as [w' [u|e]];
      simpl in *; exact D.
  - destruct (Str.split l) as [|c a]; [reflexivity|].
    destruct (String.eqb c "close" || String.eqb c "exit"); [reflexivity|].
    pose proof (keeps_dispatch today c a (prompt w) Hw) as K.
    destruct (dispatch today c a (prompt w)) as [w' [u|e]];
      [now apply IH | reflexivity].
Qed.

(** X9.  Only [add] and [add-birthday] change the address book: a line
    with any other command, [change] included, put after any lines of
    input gives the same address book at the end of the run. *)
Theorem only_add_changes_book (today : date) (lines : list string)
  (cl command : string) (args : list string) :
  Str.split cl = command :: args ->
  command <> "add" -> command <> "add-birthday" ->
  book (final (main today (lines ++ [cl])))
  = book (final (main today lines)).
Proof.
  intros Hs Hadd Hbd. unfold main.
  apply (loop_last_line_book today lines cl command args); auto.
  split; constructor.
Qed.

Lemma only_add_changes_book_witness :
  book (final (main (mkDate 2024 3 1)
                 (["add John 1234567890"; "add-birthday John 01.03.1990"]
                  ++ ["change John 1234567890 1112223333"])))
  = book (final (main (mkDate 2024 3 1)
                   ["add John 1234567890"; "add-birthday John 01.03.1990"])).
Proof.
  apply (only_add_changes_book (mkDate 2024 3 1)
           ["add John 1234567890"; "add-birthday John 01.03.1990"]
           "change John 1234567890 1112223333" "change"
           ["John"; "1234567890"; "1112223333"]).
  - reflexivity.
  - discriminate.
  - discriminate.
Defined.

(* ------------------------------------------------------------------ *)
(** ** What [add] stores *)

Lemma get_update_same (k : string) (f : record -> record) (d : dict) :
  Dict.get k (Dict.update k f d) = option_map f (Dict.get k d).
Proof.
  induction d as [|[k' v] d IH]; simpl; [reflexivity|].
  destruct (String.eqb k' k) eqn:E; simpl; rewrite E; [reflexivity|exact IH].
Qed.

Lemma get_update_other (k k' : string) (f : record -> record) (d : dict) :
  k' <> k -> Dict.get k' (Dict.update k f d) = Dict.get k' d.
Proof.
  intros Hk. induction d as [|[k0 v] d IH]; simpl; [reflexivity|].
  destruct (String.eqb_spec k0 k); simpl.
  - subst k0. destruct (String.eqb_spec k k'); [congruence | reflexivity].
  - destruct (String.eqb_spec k0 k'); [reflexivity | exact IH].
Qed.

Lemma Phone_valid_nonempty (s : string) :
  Phone_valid s = true -> Str.nonempty s = true.
Proof.
  unfold Phone_valid, Str.isdigit. rewrite !andb_true_iff. tauto.
Qed.

(** X10.  [add] with a valid phone and an alphabetic name that the
    directory does not hold answers [Contact added.] and puts under the
    name, after all the other keys, a record with that one phone and no
    birthday; with a name that the directory holds it answers
    [Contact updated.] and appends the phone to the phones of the
    record, keeping the order of the keys.  What is found under any
    other name is as before, and nothing is printed by the handler. *)
Theorem add_contact_stores (w : world) (n ph : string) (rest : list string) :
  Phone_valid ph = true ->
  let p := mkPhone (next_oid w) ph in
  (AddressBook.find n (book w) = None -> Str.isalpha n = true ->
   exists d',
     add_contact (n :: ph :: rest) w
     = (mkWorld (mkBook d') (S (next_oid w)) (stdout w), Ok "Contact added.")
     /\ Dict.get n d' = Some (mkRecord (mkName n) [p] None)
     /\ (forall n', n' <> n -> Dict.get n' d' = AddressBook.find n' (book w))
     /\ Dict.keys d' = (Dict.keys (records (book w)) ++ [n])%list)
  /\ (forall r, AddressBook.find n (book w) = Some r ->
      exists d',
        add_contact (n :: ph :: rest) w
        = (mkWorld (mkBook d') (S (next_oid w)) (stdout w),
           Ok "Contact updated.")
        /\ Dict.get n d' = Some (Rec.add_phone p r)
        /\ (forall n', n' <> n ->
            Dict.get n' d' = AddressBook.find n' (book w))
        /\ Dict.keys d' = Dict.keys (records (book w))).
Proof.
  intros Hv p. subst p. unfold_commands.
  unfold Rec.init, Name_init, AddressBook.find, AddressBook.add_record.
  rewrite (Phone_valid_nonempty _ Hv). split.
  - intros Ef Ea. rewrite Ef, Ea. simpl. rewrite Phone_init_cases, Hv. simpl.
    eexists. split; [reflexivity|].
    rewrite get_update_same, get_set_same, keys_update.
    split; [reflexivity|]. split.
    + intros n' Hn'. rewrite get_update_other by exact Hn'.
      now apply get_set_other.
    + rewrite (set_new_key _ _ _ Ef). unfold Dict.keys. now rewrite map_app.
  - intros r Ef. rewrite Ef. simpl. rewrite Phone_init_cases, Hv. simpl.
    eexists. split; [reflexivity|].
    rewrite get_update_same, Ef, keys_update.
    split; [reflexivity|]. split; [|reflexivity].
    intros n' Hn'. now apply get_update_other.
Qed.

(** On the new address book, [add John 1234567890]; and then
    [add John 0987654321]. *)
Lemma add_contact_stores_witness :
  Phone_valid "1234567890" = true
  /\ fst (add_contact ["John"; "1234567890"] (mkWorld AddressBook.init 0 []))
     = mkWorld (mkBook [("John", john_one)]) 1 []
  /\ exists d',
       add_contact ["John"; "0987654321"]
         (mkWorld (mkBook [("John", john_one)]) 1 [])
       = (mkWorld (mkBook d') 2 [], Ok "Contact updated.")
       /\ Dict.get "John" d'
          = Some (Rec.add_phone (mkPhone 1 "0987654321") john_one)
       /\ (forall n', n' <> "John" ->
           Dict.get n' d'
           = AddressBook.find n' (mkBook [("John", john_one)]))
       /\ Dict.keys d' = ["John"].
Proof.
  split; [reflexivity|]. split; [reflexivity|].
  exact (proj2 (add_contact_stores
                  (mkWorld (mkBook [("John", john_one)]) 1 [])
                  "John" "0987654321" [] eq_refl) john_one eq_refl).
Defined.

(** X11.  [add] that fails: with fewer than two arguments, or with a
    new name that is not alphabetic, or with a known name and a phone
    that is not valid, the directory is as before; with a new alphabetic
    name and a phone that is not valid, the answer is the error of the
    phone and the directory holds the new contact, without a phone. *)
Theorem add_contact_failures (w : world) (n ph : string)
  (rest : list string) :
  fst (add_contact [] w) = w /\ fst (add_contact [n] w) = w
  /\ snd (add_contact [n] w)
     = Ok "Command 'add' requires both name and phone number."
  /\ (AddressBook.find n (book w) = None -> Str.isalpha n = false ->
      add_contact (n :: ph :: rest) w
      = (w, Ok "Name must contain only alphabetic characters."))
  /\ (Str.nonempty ph = true -> Phone_valid ph = false ->
      (forall r, AddressBook.find n (book w) = Some r ->
         add_contact (n :: ph :: rest) w
         = (mkWorld (book w) (S (next_oid w)) (stdout w),
            Ok "Phone number must be 10 digits long."))
      /\ (AddressBook.find n (book w) = None -> Str.isalpha n = true ->
          add_contact (n :: ph :: rest) w
          = (mkWorld
               (AddressBook.add_record (mkRecord (mkName n) [] None) (book w))
               (S (next_oid w)) (stdout w),
             Ok "Phone number must be 10 digits long."))).
Proof.
  unfold_commands.
  unfold Rec.init, Name_init, AddressBook.find, AddressBook.add_record.
  split; [now destruct w|]. split; [now destruct w|].
  split; [reflexivity|]. split.
  - intros Ef Ea. rewrite Ef, Ea. simpl. now destruct w.
  - intros Hn Hv. rewrite Hn. split.
    + intros r Ef. rewrite Ef. simpl. rewrite Phone_init_cases, Hv.
      reflexivity.
    + intros Ef Ea. rewrite Ef, Ea. simpl. rewrite Phone_init_cases, Hv.
      reflexivity.
Qed.

(** On the new address book, [add Bob 12]: Bob is there, without a
    phone. *)
Lemma add_contact_failures_witness :
  add_contact ["Bob"; "12"] (mkWorld AddressBook.init 0 [])
  = (mkWorld (mkBook [("Bob", mkRecord (mkName "Bob") [] None)]) 1 [],
     Ok "Phone number must be 10 digits long.").
Proof.
  exact (proj2 (proj2 (proj2 (proj2 (proj2
           (add_contact_failures (mkWorld AddressBook.init 0 [])
              "Bob" "12" [])))) eq_refl eq_refl) eq_refl eq_refl).
Defined.

(* ------------------------------------------------------------------ *)
(** ** Setting and showing a birthday *)

(** X12.  [add-birthday] for a contact of the directory, with a text
    that [Birthday] accepts, answers that the birthday was added and
    sets it, replacing any earlier one and keeping name and phones; no
    other record changes; [show-birthday] for that contact then answers
    the date in the form day.month.year. *)
Theorem add_birthday_then_show (w : world) (n bd : string)
  (rest rest' : list string) (r : record) (b : Birthday) :
  AddressBook.find n (book w) = Some r ->
  Birthday_init bd = Ok b ->
  exists w',
    add_birthday (n :: bd :: rest) w
    = (w', Ok ("Birthday added for " ++ n ++ "."))
    /\ AddressBook.find n (book w')
       = Some (mkRecord (name r) (phones r) (Some b))
    /\ (forall n', n' <> n ->
        AddressBook.find n' (book w') = AddressBook.find n' (book w))
    /\ next_oid w' = next_oid w /\ stdout w' = stdout w
    /\ show_birthday (n :: rest') w'
       = (w', Ok (n ++ "'s birthday is " ++ Date.strftime_dmY (bday_date b))).
Proof.
  intros Ef Hb. unfold_commands. rewrite Ef, Hb. simpl.
  eexists. split; [reflexivity|]. unfold AddressBook.find in *. simpl.
  rewrite get_update_same, Ef. simpl.
  split; [reflexivity|]. split; [|repeat split].
  intros n' Hn'. now apply get_update_other.
Qed.

(** John gets a birthday entered as 1.3.1990; it is shown as
    01.03.1990. *)
Lemma add_birthday_then_show_witness :
  exists w',
    add_birthday ["John"; "1.3.1990"]
      (mkWorld (mkBook [("John", john_two)]) 2 [])
    = (w', Ok "Birthday added for John.")
    /\ show_birthday ["John"] w' = (w', Ok "John's birthday is 01.03.1990").
Proof.
  destruct (add_birthday_then_show
              (mkWorld (mkBook [("John", john_two)]) 2 [])
              "John" "1.3.1990" [] [] john_two
              (mkBirthday "1.3.1990" (mkDate 1990 3 1)) eq_refl eq_refl)
    as (w' & H1 & _ & _ & _ & _ & H2).
  exists w'. split; [exact H1 | exact H2].
Defined.

(** X13.  [add-birthday] that fails leaves the state as it was: with
    fewer than two arguments, for a contact the directory does not hold
    (whatever the date text), and for a known contact with a text that
    [Birthday] refuses; [show-birthday] never changes the state, and
    for an unknown contact or one without birthday it answers that no
    birthday was found. *)
Theorem birthday_commands_failures (w : world) (n bd : string)
  (rest : list string) :
  fst (add_birthday [] w) = w /\ fst (add_birthday [n] w) = w
  /\ (AddressBook.find n (book w) = None ->
      add_birthday (n :: bd :: rest) w = (w, Ok "Contact not found."))
  /\ (AddressBook.find n (book w) <> None ->
      (forall b, Birthday_init bd <> Ok b) ->
      add_birthday (n :: bd :: rest) w
      = (w, Ok "Invalid date format. Use DD.MM.YYYY"))
  /\ (forall args, fst (show_birthday args w) = w)
  /\ ((forall r, AddressBook.find n (book w) = Some r -> birthday r = None) ->
      show_birthday (n :: rest) w
      = (w, Ok "No birthday found for this contact.")).
Proof.
  unfold_commands.
  split; [reflexivity|]. split; [reflexivity|]. split; [|split; [|split]].
  - intros Ef. now rewrite Ef.
  - intros Ef Hb. destruct (AddressBook.find n (book w)); [|congruence].
    destruct (Birthday_init_total bd) as [[b H]|H]; [now destruct (Hb b)|].
    now rewrite H.
  - intros [|n0 args]; [reflexivity|].
    destruct (AddressBook.find n0 (book w)) as [[nm ps [b|]]|]; reflexivity.
  - intros H. destruct (AddressBook.find n (book w)) as [[nm ps [b|]]|];
      try reflexivity.
    specialize (H _ eq_refl). discriminate H.
Qed.

Lemma birthday_commands_failures_witness :
  add_birthday ["Mary"; "15.06.1995"] (mkWorld AddressBook.init 0 [])
  = (mkWorld AddressBook.init 0 [], Ok "Contact not found.")
  /\ add_birthday ["John"; "31.02.1990"]
       (mkWorld (mkBook [("John", john_two)]) 2 [])
     = (mkWorld (mkBook [("John", john_two)]) 2 [],
        Ok "Invalid date format. Use DD.MM.YYYY").
Proof.
  split.
  - exact (proj1 (proj2 (proj2 (birthday_commands_failures
                                  (mkWorld AddressBook.init 0 [])
                                  "Mary" "15.06.1995" []))) eq_refl).
  - apply (proj1 (proj2 (proj2 (proj2 (birthday_commands_failures
                                  (mkWorld (mkBook [("John", john_two)]) 2 [])
                                  "John" "31.02.1990" []))))).
    + discriminate.
    + intros b. discriminate.
Defined.

(* ------------------------------------------------------------------ *)
(** ** Listing *)

Lemma print_all_world (rs : list record) (w : world) :
  fst (print_all rs w)
  = mkWorld (book w) (next_oid w) (stdout w ++ map record_line rs).
Proof.
  revert w. induction rs as [|r rs IH]; intros w; simpl.
  - rewrite app_nil_r. now destruct w.
  - unfold mbind, print. rewrite IH. simpl. now rewrite <- app_assoc.
Qed.

(** X14.  [all] prints one line for each record of the directory, in
    the order of insertion, made of the name and the phones joined by
    commas, and changes nothing else; [phone] prints the phones of the
    contact asked for in the same way, or that the contact was not
    found. *)
Theorem listing_commands (today : date) (args rest : list string)
  (n : string) (w : world) :
  dispatch today "all" args w
  = (mkWorld (book w) (next_oid w)
       (stdout w ++ map record_line (Dict.values (records (book w)))), Ok tt)
  /\ dispatch today "phone" (n :: rest) w
     = (mkWorld (book w) (next_oid w)
          (stdout w ++
           [Line match AddressBook.find n (book w) with
                 | Some r => n ++ "'s phones: " ++ phones_text r
                 | None => "Contact not found."
                 end]), Ok tt).
Proof.
  split.
  - change (dispatch today "all" args w)
      with (print_all (Dict.values (records (book w))) w).
    rewrite (surjective_pairing (print_all _ w)).
    now rewrite print_all_world, print_all_result.
  - change (dispatch today "phone" (n :: rest) w)
      with (phone_branch (n :: rest) w).
    unfold_commands. now destruct (AddressBook.find n (book w)).
Qed.

(* ------------------------------------------------------------------ *)
(** ** Showing a date that was parsed *)

Section Decimal_text.

Import DecimalString.

Lemma digit_cases (a : ascii) :
  ascii_digit a = true ->
  (a = "0" \/ a = "1" \/ a = "2" \/ a = "3" \/ a = "4" \/ a = "5"
   \/ a = "6" \/ a = "7" \/ a = "8" \/ a = "9")%char.
Proof.
  unfold ascii_digit, Str.in_range.
  rewrite andb_true_iff, !Z.leb_le. intros H.
  assert (C : Str.code a = 48 \/ Str.code a = 49 \/ Str.code a = 50
              \/ Str.code a = 51 \/ Str.code a = 52 \/ Str.code a = 53
              \/ Str.code a = 54 \/ Str.code a = 55 \/ Str.code a = 56
              \/ Str.code a = 57) by lia.
  repeat (destruct C as [C|C];
          [repeat (try (left; apply code_inj; exact C); right)|]);
    repeat right; apply code_inj; exact C.
Qed.

(** An ASCII digit is one byte, a decimal digit, and worth its place
    after the character 0. *)
Lemma ascii_digit_char (a : ascii) :
  ascii_digit a = true ->
  Str.code a < 128
  /\ Str.char_isdecimal (Str.code a) = true
  /\ Str.decimal_value (Str.code a) = Str.code a - 48.
Proof.
  intros H. apply digit_cases in H.
  repeat (destruct H as [H|H]; [subst a; now vm_compute|]).
  subst a. now vm_compute.
Qed.

Lemma chunks_ascii (a : ascii) (r : string) :
  Str.code a < 128 ->
  Str.chunks (String a r) = (Str.code a, String a "") :: Str.chunks r.
Proof.
  intros H. cbn [Str.chunks].
  destruct (Z.ltb_spec (Str.code a) 128); [reflexivity | lia].
Qed.

Lemma decode_ascii_app (t r : string) :
  Forall (fun a => Str.code a < 128) (chars t) ->
  Str.decode (t ++ r) = (map Str.code (chars t) ++ Str.decode r)%list.
Proof.
  unfold Str.decode, chars. induction t as [|a t IH];
    cbn [append list_ascii_of_string map app]; intros H; [reflexivity|].
  inversion H as [|? ? Ha Ht]; subst.
  rewrite (chunks_ascii a _ Ha). cbn [map fst]. f_equal. now apply IH.
Qed.

Lemma decode_ascii (t : string) :
  Forall (fun a => Str.code a < 128) (chars t) ->
  Str.decode t = map Str.code (chars t).
Proof.
  intros H. rewrite <- (append_empty t) at 1.
  rewrite (decode_ascii_app t "" H). apply app_nil_r.
Qed.

Lemma digits_are_ascii (t : string) :
  every ascii_digit t -> Forall (fun a => Str.code a < 128) (chars t).
Proof.
  unfold every. intros H. eapply Forall_impl; [|exact H].
  intros a Ha. now apply ascii_digit_char in Ha.
Qed.

Lemma int_aux_digits (t : string) :
  every ascii_digit t ->
  forall acc : Z,
    Str.int_aux (map Str.code (chars t)) acc = ascii_int_aux t acc.
Proof.
  unfold every, chars. induction t as [|a t IH];
    cbn [list_ascii_of_string map Str.int_aux ascii_int_aux];
    intros H acc; [reflexivity|].
  inversion H as [|? ? Ha Ht]; subst.
  destruct (ascii_digit_char a Ha) as (_ & Hd & Hv).
  rewrite Hd, Hv, Ha. now apply IH.
Qed.

(** On a text of ASCII digits [int] gives the number written. *)
Lemma int_digits (t : string) :
  every ascii_digit t -> Str.int t = ascii_int t.
Proof.
  intros H. unfold Str.int, Str.int_chars, ascii_int.
  rewrite (decode_ascii t (digits_are_ascii t H)). now apply int_aux_digits.
Qed.

Lemma digits_parse (t : string) :
  every ascii_digit t -> exists d, NilEmpty.uint_of_string t = Some d.
Proof.
  unfold every, chars. induction t as [|a t IH]; simpl; intros H.
  - now exists Decimal.Nil.
  - inversion H as [|? ? Ha Ht]; subst. destruct (IH Ht) as [d ->].
    apply digit_cases in Ha.
    repeat (destruct Ha as [Ha|Ha]; [subst a; eexists; reflexivity|]).
    subst a. eexists. reflexivity.
Qed.

Ltac digit_step IH :=
  cbn [Nat.of_uint_acc]; rewrite <- (IH _ eq_refl), ?Nat.tail_mul_spec;
  match goal with
  | |- (if ascii_digit ?c then _ else _) = _ =>
      change (ascii_digit c) with true; cbv iota;
      let v := eval vm_compute in (Str.code c) in
      change (Str.code c) with v
  end;
  f_equal; lia.

Lemma int_aux_of_uint (t : string) (d : Decimal.uint) :
  NilEmpty.uint_of_string t = Some d ->
  forall acc : nat,
    ascii_int_aux t (Z.of_nat acc) = Z.of_nat (Nat.of_uint_acc d acc).
Proof.
  revert d. induction t as [|a t IH];
    cbn [NilEmpty.uint_of_string ascii_int_aux]; intros d H acc.
  - now injection H as <-.
  - destruct (NilEmpty.uint_of_string t) as [d'|]; [|discriminate].
    apply uint_of_char_spec in H.
    repeat (destruct H as [[-> ->]|H]; [digit_step IH|]).
    destruct H as [-> ->]. digit_step IH.
Qed.

(** Printing the number that a text of digits without a leading zero
    stands for gives the text back. *)
Lemma of_nat_int (a : ascii) (t : string) :
  every ascii_digit (String a t) -> a <> "0"%char ->
  Str.of_nat (Z.to_nat (ascii_int (String a t))) = String a t.
Proof.
  intros Hd Ha. destruct (digits_parse _ Hd) as [d Hp].
  pose proof (int_aux_of_uint _ _ Hp 0%nat) as Hi.
  change (Z.of_nat 0) with 0 in Hi. unfold ascii_int, Str.of_nat.
  rewrite Hi, Nat2Z.id. change (Nat.of_uint_acc d 0) with (Nat.of_uint d).
  rewrite DecimalNat.Unsigned.to_of.
  pose proof (NilEmpty.sus _ _ Hp) as Hs.
  assert (Hn : Decimal.unorm d = d /\ d <> Decimal.Nil).
  { cbn [NilEmpty.uint_of_string] in Hp.
    destruct (NilEmpty.uint_of_string t) as [d'|]; [|discriminate].
    apply uint_of_char_spec in Hp.
    destruct Hp as [[-> _]|Hp]; [congruence|].
    repeat (destruct Hp as [[_ ->]|Hp]; [split; [reflexivity|discriminate]|]).
    destruct Hp as [_ ->]. split; [reflexivity|discriminate]. }
  destruct Hn as [-> Hnil]. rewrite <- Hs.
  destruct d; [congruence | reflexivity ..].
Qed.

(** A text of two digits is shown again by the padded form. *)
Lemma zfill_two_digits (t : string) :
  digits 2 t -> Str.zfill 2 (Str.of_nat (Z.to_nat (ascii_int t))) = t.
Proof.
  intros H. apply digits_2 in H. destruct H as (a & b & -> & Ha & Hb).
  apply digit_cases in Ha. apply digit_cases in Hb.
  repeat (destruct Ha as [Ha|Ha]; [subst a|]); [..|subst a];
    repeat (destruct Hb as [Hb|Hb]; [subst b; reflexivity|]);
    subst b; reflexivity.
Qed.

Lemma ascii_int_two (a b : ascii) :
  ascii_digit a = true -> ascii_digit b = true ->
  ascii_int (String a (String b ""))
  = 10 * (Str.code a - 48) + (Str.code b - 48).
Proof.
  intros Ha Hb. unfold ascii_int. cbn [ascii_int_aux]. rewrite Ha, Hb. lia.
Qed.

Lemma ascii_digit_range (a : ascii) :
  ascii_digit a = true -> 48 <= Str.code a <= 57.
Proof.
  unfold ascii_digit, Str.in_range. rewrite andb_true_iff, !Z.leb_le. tauto.
Qed.

Lemma four_digits_leading (t : string) :
  digits 4 t -> 1000 <= ascii_int t ->
  exists a r, t = String a r /\ a <> "0"%char.
Proof.
  intros H Hy. apply digits_4 in H.
  destruct H as (a & b & c & d & -> & Ha & Hb & Hc & Hdd).
  exists a, (String b (String c (String d ""))). split; [reflexivity|].
  intros ->. unfold ascii_int in Hy. cbn [ascii_int_aux] in Hy.
  rewrite Hb, Hc, Hdd in Hy. change (ascii_digit "0") with true in Hy.
  cbv iota in Hy. change (Str.code "0") with 48 in Hy.
  apply ascii_digit_range in Hb, Hc, Hdd. lia.
Qed.

Ltac codes :=
  unfold Strptime.chr, Strptime.rng, Str.in_range;
  change (Str.code " ") with 32; change (Str.code "0") with 48;
  change (Str.code "1") with 49; change (Str.code "2") with 50;
  change (Str.code "3") with 51; change (Str.code "9") with 57;
  rewrite ?andb_true_iff, ?Z.leb_le.

(** Two ASCII digits that stand for 1 to 31 are a day that [Birthday]
    accepts, for 1 to 12 a month, and four are a year. *)
Lemma two_digit_day (t : string) :
  digits 2 t -> 1 <= ascii_int t <= 31 ->
  day_text (map Str.code (chars t)).
Proof.
  intros H. apply digits_2 in H. destruct H as (a & b & -> & Ha & Hb).
  rewrite (ascii_int_two a b Ha Hb). intros R.
  destruct (ascii_digit_char b Hb) as (_ & Hdb & _).
  apply ascii_digit_range in Ha, Hb.
  cbn [chars list_ascii_of_string map]. unfold day_text, tok2.
  assert (C : Str.code a = 51 \/ 49 <= Str.code a <= 50 \/ Str.code a = 48)
    by lia.
  destruct C as [C|[C|C]].
  - left. exists (Str.code a), (Str.code b).
    split; [reflexivity|]. split; codes; lia.
  - right; left. exists (Str.code a), (Str.code b).
    split; [reflexivity|]. split; [codes; lia | exact Hdb].
  - right; right; left. exists (Str.code a), (Str.code b).
    split; [reflexivity|]. split; codes; lia.
Qed.

Lemma two_digit_month (t : string) :
  digits 2 t -> 1 <= ascii_int t <= 12 ->
  month_text (map Str.code (chars t)).
Proof.
  intros H. apply digits_2 in H. destruct H as (a & b & -> & Ha & Hb).
  rewrite (ascii_int_two a b Ha Hb). intros R.
  apply ascii_digit_range in Ha, Hb.
  cbn [chars list_ascii_of_string map]. unfold month_text, tok2.
  assert (C : Str.code a = 49 \/ Str.code a = 48) by lia.
  destruct C as [C|C].
  - left. exists (Str.code a), (Str.code b).
    split; [reflexivity|]. split; codes; lia.
  - right; left. exists (Str.code a), (Str.code b).
    split; [reflexivity|]. split; codes; lia.
Qed.

Lemma four_digit_year (t : string) :
  digits 4 t -> year_text (map Str.code (chars t)).
Proof.
  intros H. apply digits_4 in H.
  destruct H as (a & b & c & d & -> & Ha & Hb & Hc & Hd).
  exists (Str.code a), (Str.code b), (Str.code c), (Str.code d).
  split; [reflexivity|].
  repeat split; now apply ascii_digit_char.
Qed.

(** A text in the strict format is accepted, with the date written. *)
Lemma strict_text_accepted (s : string) :
  strict_text s ->
  exists ds ms ys,
    s = ds ++ "." ++ ms ++ "." ++ ys
    /\ digits 2 ds /\ digits 2 ms /\ digits 4 ys
    /\ Birthday_init s
       = Ok (mkBirthday s
               (mkDate (ascii_int ys) (ascii_int ms) (ascii_int ds))).
Proof.
  intros (ds & ms & ys & E & Hd & Hm & Hy & V).
  exists ds, ms, ys. repeat (split; [assumption|]).
  rewrite (int_digits ys (proj2 Hy)), (int_digits ms (proj2 Hm)),
    (int_digits ds (proj2 Hd)) in V.
  pose proof (valid_bounds _ _ _ V) as [Bm Bd].
  apply Birthday_init_parts.
  exists (map Str.code (chars ds)), (map Str.code (chars ms)),
    (map Str.code (chars ys)).
  assert (Dot : Str.code "." < 128) by reflexivity.
  split.
  { rewrite E.
    rewrite (decode_ascii_app ds _ (digits_are_ascii ds (proj2 Hd))).
    cbn [append]. unfold Str.decode at 1.
    rewrite (chunks_ascii "." _ Dot). cbn [map fst].
    fold (Str.decode (ms ++ String "." ys)).
    rewrite (decode_ascii_app ms _ (digits_are_ascii ms (proj2 Hm))).
    unfold Str.decode at 1.
    rewrite (chunks_ascii "." _ Dot). cbn [map fst].
    fold (Str.decode ys).
    rewrite (decode_ascii ys (digits_are_ascii ys (proj2 Hy))).
    reflexivity. }
  unfold Str.int_chars.
  rewrite (int_aux_digits ys (proj2 Hy)), (int_aux_digits ms (proj2 Hm)),
    (int_aux_digits ds (proj2 Hd)).
  fold (ascii_int ys). fold (ascii_int ms). fold (ascii_int ds).
  split; [now apply two_digit_day|].
  split; [now apply two_digit_month|].
  split; [now apply four_digit_year|].
  split; [exact V | reflexivity].
Qed.

(** Text in the strict format is accepted. *)
Corollary Birthday_accepts_strict (s : string) :
  strict_text s -> exists b, Birthday_init s = Ok b.
Proof.
  intros H. destruct (strict_text_accepted s H) as (ds & ms & ys & H').
  eexists. apply H'.
Qed.

End Decimal_text.

(** X15.  A birthday entered as two digits, two digits and four digits,
    with a year from 1000 on, is shown by [strftime] exactly as it was
    entered. *)
Theorem show_parsed_date (s : string) (b : Birthday) :
  strict_text s ->
  Birthday_init s = Ok b ->
  1000 <= year (bday_date b) ->
  Date.strftime_dmY (bday_date b) = s.
Proof.
  intros Hs Hb Hyear.
  destruct (strict_text_accepted s Hs)
    as (ds & ms & ys & E & Hd & Hm & Hy & Hb').
  rewrite Hb' in Hb. injection Hb as <-.
  cbn [bday_date year] in Hyear.
  unfold Date.strftime_dmY. cbn [bday_date year month day].
  rewrite (zfill_two_digits _ Hd), (zfill_two_digits _ Hm).
  destruct (four_digits_leading _ Hy Hyear) as (a & r & -> & Ha).
  rewrite (of_nat_int a r (proj2 Hy) Ha). symmetry. exact E.
Qed.

Lemma show_parsed_date_witness :
  strict_text "05.11.1987"
  /\ Date.strftime_dmY (mkDate 1987 11 5) = "05.11.1987".
Proof.
  assert (S : strict_text "05.11.1987").
  { exists "05", "11", "1987". split; [reflexivity|].
    repeat split; repeat constructor. }
  split; [exact S|].
  apply (show_parsed_date "05.11.1987"
           (mkBirthday "05.11.1987" (mkDate 1987 11 5)) S eq_refl).
  simpl. lia.
Defined.
